(** * The pretty formatter of cucumber-js, embedded from [src/index.ts]

    [PrettyFormatter] listens to the envelopes of a test run and prints, as
    they arrive, the feature, rule and scenario heads, the steps and the
    outcome of the steps that did not pass.  The class keeps three private
    fields between envelopes ([uri], [lastRuleId], [indentOffset]) and writes
    through [this.log].

    The embedding is shallow: every method of the class is a function of a
    small state-and-exception monad over the record [Formatter]; an exception
    leaves the fields and the text logged so far as they are, as in
    JavaScript.  What the class imports from other packages (the event data
    collector and the Gherkin helpers of [@cucumber/cucumber], the theme,
    [cli-table3], [figures], [ts-dedent], [os.EOL]) is gathered in the class
    [Host] and stays abstract in every general statement. *)

From Stdlib Require Import ZArith Lia Ascii String List Bool.
From stdpp Require Import base option list strings pretty gmap.

Local Open Scope Z_scope.
Local Open Scope string_scope.

(** ** Messages *)

(** [Status] of [@cucumber/cucumber]: a string enumeration, every member of
    which is a non-empty string and therefore truthy. *)
Inductive Status : Type :=
  | AMBIGUOUS | FAILED | PASSED | PENDING | SKIPPED | UNDEFINED | UNKNOWN.

#[global] Instance Status_eq_dec : EqDecision Status.
Proof. solve_decision. Defined.

(** [Status[status]]: the name of the member. *)
Definition Status_name (s : Status) : string :=
  match s with
  | AMBIGUOUS => "AMBIGUOUS" | FAILED => "FAILED" | PASSED => "PASSED"
  | PENDING => "PENDING" | SKIPPED => "SKIPPED" | UNDEFINED => "UNDEFINED"
  | UNKNOWN => "UNKNOWN"
  end.

(** [ThemeItem] of [./theme]: the members that the two tables of
    [index.ts] list. *)
Inductive ThemeItem : Type :=
  | DataTable | DataTableBorder | DataTableContent | DocStringContent
  | DocStringDelimiter | FeatureDescription | FeatureKeyword | FeatureName
  | Location | RuleKeyword | RuleName | ScenarioKeyword | ScenarioName
  | StepKeyword | StepMessage | StepStatus | StepText | Tag.

Record Tag_t : Type := { tag_name : string }.

Record Location_t : Type := { line : Z }.

Record DocString : Type := { delimiter : string; content : string }.

Record TableCell : Type := { value : option string }.
Record TableRow : Type := { cells : option (list TableCell) }.
Record DataTable_t : Type := { rows : list TableRow }.

Record Step : Type := {
  step_id : string;
  step_keyword : string;
  docString : option DocString;
  dataTable : option DataTable_t
}.

Record Scenario : Type := {
  scenario_id : string;
  scenario_keyword : option string;
  scenario_location : option Location_t;
  scenario_steps : list Step
}.

Record Rule : Type := {
  rule_id : string;
  rule_keyword : string;
  rule_name : option string;
  rule_children : list Scenario
}.

Inductive FeatureChild : Type :=
  | ChildScenario (s : Scenario)
  | ChildRule (r : Rule).

Record Feature : Type := {
  feature_tags : option (list Tag_t);
  feature_keyword : option string;
  feature_name : option string;
  feature_location : option Location_t;
  feature_description : option string;
  feature_children : list FeatureChild
}.

Record GherkinDocument : Type := {
  doc_uri : option string;
  feature : option Feature
}.

Record PickleStep : Type := {
  pickleStep_id : string;
  pickleStep_astNodeIds : list string;
  pickleStep_text : string
}.

Record Pickle : Type := {
  pickle_name : option string;
  pickle_tags : option (list Tag_t);
  astNodeIds : option (list string);
  pickle_steps : list PickleStep
}.

Record TestStep : Type := {
  testStep_id : string;
  pickleStepId : option string
}.

Record TestCase : Type := { testSteps : option (list TestStep) }.

Record TestCaseAttempt : Type := {
  gherkinDocument : GherkinDocument;
  pickle : Pickle;
  testCase : TestCase
}.

Record TestCaseStarted : Type := { testCaseStarted_id : option string }.

Record TestStepStarted : Type := {
  testCaseStartedId : option string;
  testStepId : string
}.

Record TestStepResult : Type := {
  message : option string;
  status : option Status
}.

Record TestStepFinished : Type := { testStepResult : option TestStepResult }.

Record TestCaseFinished : Type := { testCaseFinished_id : option string }.

Record Envelope : Type := {
  testCaseStarted : option TestCaseStarted;
  testStepStarted : option TestStepStarted;
  testStepFinished : option TestStepFinished;
  testCaseFinished : option TestCaseFinished
}.

(** Envelopes of one kind each, as the broadcaster sends them. *)

Definition noEnvelope : Envelope :=
  {| testCaseStarted := None; testStepStarted := None;
     testStepFinished := None; testCaseFinished := None |}.

Definition caseStarted (id : string) : Envelope :=
  {| testCaseStarted := Some {| testCaseStarted_id := Some id |};
     testStepStarted := None; testStepFinished := None;
     testCaseFinished := None |}.

Definition stepStarted (id step : string) : Envelope :=
  {| testCaseStarted := None;
     testStepStarted :=
       Some {| testCaseStartedId := Some id; testStepId := step |};
     testStepFinished := None; testCaseFinished := None |}.

Definition stepFinished (s : Status) (m : option string) : Envelope :=
  {| testCaseStarted := None; testStepStarted := None;
     testStepFinished :=
       Some {| testStepResult := Some {| message := m; status := Some s |} |};
     testCaseFinished := None |}.

Definition caseFinished (id : string) : Envelope :=
  {| testCaseStarted := None; testStepStarted := None;
     testStepFinished := None;
     testCaseFinished := Some {| testCaseFinished_id := Some id |} |}.

(** ** JavaScript values *)

(** Truthiness of an optional string: [undefined] and the empty string are
    falsy. *)
Definition truthy (s : option string) : bool :=
  match s with
  | Some EmptyString => false
  | Some _ => true
  | None => false
  end.

(** [s || d] on an optional string. *)
Definition orElse (s : option string) (d : string) : string :=
  match s with
  | Some EmptyString => d
  | Some x => x
  | None => d
  end.

(** [location?.line || -1]: a missing location and line 0 both give -1. *)
Definition lineOr (l : option Location_t) : Z :=
  match l with
  | Some loc => if Z.eqb (line loc) 0 then -1 else line loc
  | None => -1
  end.

(** [ids[0]] used as a property key: reading past the end of an array gives
    [undefined], and a property key is converted to a string. *)
Definition key0 (ids : list string) : string :=
  match ids with
  | k :: _ => k
  | [] => "undefined"
  end.

Definition lowerAscii (c : ascii) : ascii :=
  let k := nat_of_ascii c in
  if (Nat.leb 65 k && Nat.leb k 90)%bool then ascii_of_nat (k + 32) else c.

(** [String.prototype.toLowerCase], on the ASCII names of [Status]. *)
Fixpoint toLowerCase (s : string) : string :=
  match s with
  | EmptyString => EmptyString
  | String c r => String (lowerAscii c) (toLowerCase r)
  end.

(** [themeItemIndentations]. *)
Definition themeItemIndentations (item : ThemeItem) : Z :=
  match item with
  | DataTable => 6
  | DataTableBorder => 0
  | DataTableContent => 0
  | DocStringContent => 6
  | DocStringDelimiter => 6
  | FeatureDescription => 2
  | FeatureKeyword => 0
  | FeatureName => 0
  | Location => 0
  | RuleKeyword => 2
  | RuleName => 0
  | ScenarioKeyword => 2
  | ScenarioName => 0
  | StepKeyword => 4
  | StepMessage => 6
  | StepStatus => 4
  | StepText => 0
  | Tag => 0
  end.

(** ** The formatter's state and its monad *)

Inductive Routine : Type :=
  | FeatureHead
  | RuleHead (id : string)
  | ScenarioHead.

#[global] Instance Routine_eq_dec : EqDecision Routine.
Proof. solve_decision. Defined.

(** One entry of the call journal: which head routine was entered, with the
    values [this.uri] and [this.indentOffset] had at that moment. *)
Record Call : Type := {
  routine : Routine;
  at_uri : option string;
  at_offset : Z
}.

(** The private fields of the class. *)
Record Formatter : Type := {
  uri : option string;
  lastRuleId : option string;
  indentOffset : Z
}.

(** The fields as the constructor leaves them. *)
Definition fresh : Formatter :=
  {| uri := None; lastRuleId := None; indentOffset := 0 |}.

Inductive Thrown : Type :=
  | Error (msg : string)
  | TypeError (msg : string).

Inductive Outcome (A : Type) : Type :=
  | Returns (a : A)
  | Throws (e : Thrown).
Arguments Returns {A} a.
Arguments Throws {A} e.

(** What running a piece of a method does: it returns or raises, leaves the
    fields in some state, and has handed some strings to [this.log], in
    order.  The class never reads back what it logged, so the text is
    write-only.  [entered] is the call journal; it is not in the source: it
    is a ghost output that only the three head routines extend, kept so that
    statements can count the heads that were rendered. *)
Record Effect (A : Type) : Type := {
  result : Outcome A;
  after : Formatter;
  text : list string;
  entered : list Call
}.
Arguments result {A} e.
Arguments after {A} e.
Arguments text {A} e.
Arguments entered {A} e.

Definition M (A : Type) : Type := Formatter -> Effect A.

#[global] Instance M_ret : MRet M := fun A a fm =>
  {| result := Returns a; after := fm; text := []; entered := [] |}.

(** Sequencing: what follows a raise is not run, and what was done before it
    stays done. *)
#[global] Instance M_bind : MBind M := fun A B k m fm =>
  let e1 := m fm in
  match result e1 with
  | Returns a =>
      let e2 := k a (after e1) in
      {| result := result e2; after := after e2;
         text := text e1 ++ text e2; entered := entered e1 ++ entered e2 |}
  | Throws e =>
      {| result := Throws e; after := after e1;
         text := text e1; entered := entered e1 |}
  end.

Definition throw {A} (e : Thrown) : M A := fun fm =>
  {| result := Throws e; after := fm; text := []; entered := [] |}.

(** Reading a field. *)
Definition this {A} (field : Formatter -> A) : M A := fun fm =>
  {| result := Returns (field fm); after := fm; text := []; entered := [] |}.

Definition assign (fm' : Formatter) : M unit := fun _ =>
  {| result := Returns tt; after := fm'; text := []; entered := [] |}.

Definition set_uri (u : option string) : M unit := fun fm =>
  assign {| uri := u; lastRuleId := lastRuleId fm;
            indentOffset := indentOffset fm |} fm.

Definition set_lastRuleId (r : option string) : M unit := fun fm =>
  assign {| uri := uri fm; lastRuleId := r;
            indentOffset := indentOffset fm |} fm.

Definition set_indentOffset (k : Z) : M unit := fun fm =>
  assign {| uri := uri fm; lastRuleId := lastRuleId fm;
            indentOffset := k |} fm.

(** [this.log(s)]. *)
Definition log (s : string) : M unit := fun fm =>
  {| result := Returns tt; after := fm; text := [s]; entered := [] |}.

(** Entering a head routine, for the journal. *)
Definition enter (r : Routine) : M unit := fun fm =>
  {| result := Returns tt; after := fm; text := [];
     entered := [{| routine := r; at_uri := uri fm;
                    at_offset := indentOffset fm |}] |}.

(** Reading a property of a value that may be [undefined]. *)
Definition prop {A B} (o : option A) (f : A -> B) (what : string) : M B :=
  match o with
  | Some a => mret (f a)
  | None => throw (TypeError what)
  end.

(** [xs.forEach(f)]. *)
Fixpoint forEach {A} (f : A -> M unit) (xs : list A) : M unit :=
  match xs with
  | [] => mret tt
  | x :: r => f x ;; forEach f r
  end.

Definition when (b : bool) (m : M unit) : M unit :=
  if b then m else mret tt.

(** ** What the class imports *)

(** The collaborators of the class.  [getTestCaseAttempt] is the lookup of
    [this.eventDataCollector]: [None] stands for an identifier it does not
    know, on which it raises.  The four maps are the helpers of
    [GherkinDocumentParser] and [PickleParser]; [formatLocation] is taken
    with [process.cwd()] already given; [forStatus] is [this.colorFns];
    [cliTable frame rows] is the text of a [CliTable3] built with
    [this.tableLayout], whose three vertical bars are [frame], after the rows
    were pushed; [tick] and [cross] are the two figures; [EOL] is [os.EOL],
    which the source imports as [n].

    The three Gherkin helpers are taken where they return.  Those of
    [@cucumber/cucumber] read the children of the feature of the document,
    so that on a document in which no feature was found they raise instead
    of returning a map; [index.ts] calls them (lines 163, 186 and 304) before
    its own tests.  A statement that would not hold of such a call carries
    the hypothesis that the document has a feature.

    Modelled from the spec: [indentStyleText] is the method of the theme made
    by [makeTheme] of [./theme], a file of the repository that is not part of
    the sources at hand; the specification describes it as the function that
    joins the text fragments, applies the style of the item and puts the
    given number of spaces in front.  It stays a parameter here. *)
Class Host : Type := {
  getTestCaseAttempt : string -> option TestCaseAttempt;
  getGherkinExampleRuleMap : GherkinDocument -> gmap string Rule;
  getGherkinScenarioMap : GherkinDocument -> gmap string Scenario;
  getGherkinStepMap : GherkinDocument -> gmap string Step;
  getPickleStepMap : Pickle -> gmap string PickleStep;
  formatLocation : string -> Z -> string;
  indentStyleText : Z -> ThemeItem -> list string -> string;
  forStatus : Status -> string -> string;
  cliTable : string -> list (list string) -> string;
  tick : string;
  cross : string;
  dedent : string -> string;
  trim : string -> string;
  EOL : string
}.

(** ** The methods of [PrettyFormatter] *)

Section PrettyFormatter.

Context {host : Host}.

(** [marks]. *)
Definition marks (s : Status) : string :=
  match s with
  | AMBIGUOUS => cross
  | FAILED => cross
  | PASSED => tick
  | PENDING => "?"
  | SKIPPED => "-"
  | UNDEFINED => "?"
  | UNKNOWN => "?"
  end.

(** [this.styleItem]: the offset is added to a positive indentation while the
    offset is itself positive. *)
Definition styleItem (indent : Z) (item : ThemeItem) (text : list string)
  : M string :=
  indentOffset ← this indentOffset;
  let indent :=
    if ((indent >? 0) && (indentOffset >? 0))%bool
    then indent + indentOffset else indent in
  mret (indentStyleText indent item text).

(** [this.logItem]. *)
Definition logItem (item : ThemeItem) (text : list string) : M unit :=
  s ← styleItem (themeItemIndentations item) item text;
  log s.

Definition newline : M unit := log EOL.

(** The frame character of [this.tableLayout]: the constructor computes it
    once, straight from the theme. *)
Definition tableFrameChar : string :=
  indentStyleText 0 DataTableBorder ["│"].

Definition eventDataCollector_getTestCaseAttempt (id : string)
  : M TestCaseAttempt :=
  match getTestCaseAttempt id with
  | Some a => mret a
  | None => throw (TypeError "unknown test case attempt")
  end.

Definition tagStrings (tags : list Tag_t) : list string :=
  fold_left
    (fun (acc : list string) tag =>
       if truthy (Some (tag_name tag))
       then (acc ++ [tag_name tag])%list else acc)
    tags [].

Definition renderTags (indent : Z) (tags : list Tag_t) : M unit :=
  match tagStrings tags with
  | [] => mret tt
  | firstTag :: rest =>
      s ← styleItem indent Tag [firstTag];
      log s;;
      forEach (fun tag => log " ";; logItem Tag [tag]) rest;;
      newline
  end.

Definition renderLocation (line : Z) : M unit :=
  uri ← this uri;
  logItem Location ["# "; formatLocation (orElse uri "") line].

Definition renderFeatureHead (feature : Feature) : M unit :=
  enter FeatureHead;;
  renderTags 0 (default [] (feature_tags feature));;
  logItem FeatureKeyword [orElse (feature_keyword feature) "[feature]"; ":"];;
  log " ";;
  logItem FeatureName [orElse (feature_name feature) ""];;
  when (bool_decide (is_Some (feature_location feature)))
    (log " ";;
     renderLocation (lineOr (feature_location feature)));;
  newline;;
  when (truthy (feature_description feature))
    (newline;;
     logItem FeatureDescription
       [dedent (trim (orElse (feature_description feature) ""))];;
     newline);;
  newline.

Definition renderRule (rule : Rule) : M unit :=
  enter (RuleHead (rule_id rule));;
  logItem RuleKeyword [rule_keyword rule; ":"];;
  log " ";;
  logItem RuleName [orElse (rule_name rule) ""];;
  newline;;
  newline.

Definition renderScenarioHead (gherkinDocument : GherkinDocument)
    (pickle : Pickle) : M unit :=
  enter ScenarioHead;;
  renderTags 2 (default [] (pickle_tags pickle));;
  let gherkinScenarioMap := getGherkinScenarioMap gherkinDocument in
  match astNodeIds pickle with
  | None => throw (Error "Pickle AST nodes missing")
  | Some ids =>
      let scenario := gherkinScenarioMap !! key0 ids in
      keyword ← prop scenario scenario_keyword "scenario.keyword";
      logItem ScenarioKeyword [orElse keyword "???"; ":"];;
      log " ";;
      logItem ScenarioName [orElse (pickle_name pickle) ""];;
      when (bool_decide (is_Some (gherkinScenarioMap !! key0 ids)))
        (log " ";;
         location ← prop scenario scenario_location "scenario.location";
         renderLocation (lineOr location));;
      newline
  end.

(** Lines 156 to 161 of [onTestCaseStarted]: the change of document. *)
Definition enterDocument (gherkinDocument : GherkinDocument) : M unit :=
  uri ← this uri;
  match feature gherkinDocument with
  | Some feature =>
      when (negb (bool_decide (uri = doc_uri gherkinDocument)))
        (set_indentOffset 0;;
         set_uri (Some (orElse (doc_uri gherkinDocument) ""));;
         set_lastRuleId None;;
         renderFeatureHead feature)
  | None => mret tt
  end.

(** Lines 166 to 171 of [onTestCaseStarted]: the change of rule. *)
Definition enterRule (rule : option Rule) : M unit :=
  lastRuleId ← this lastRuleId;
  match rule with
  | Some rule =>
      when (negb (bool_decide (Some (rule_id rule) = lastRuleId)))
        (set_indentOffset 0;;
         renderRule rule;;
         set_lastRuleId (Some (rule_id rule));;
         set_indentOffset 2)
  | None => mret tt
  end.

Definition onTestCaseStarted (testCaseStarted : TestCaseStarted) : M unit :=
  attempt ← eventDataCollector_getTestCaseAttempt
              (orElse (testCaseStarted_id testCaseStarted) "");
  let gherkinDocument := gherkinDocument attempt in
  let pickle := pickle attempt in
  enterDocument gherkinDocument;;
  let gherkinExampleRuleMap := getGherkinExampleRuleMap gherkinDocument in
  match astNodeIds pickle with
  | None => throw (Error "Pickle AST nodes missing")
  | Some ids =>
      enterRule (gherkinExampleRuleMap !! key0 ids);;
      renderScenarioHead gherkinDocument pickle
  end.

Definition renderDocString (d : DocString) : M unit :=
  logItem DocStringDelimiter [delimiter d];;
  newline;;
  logItem DocStringContent [content d];;
  newline;;
  logItem DocStringDelimiter [delimiter d];;
  newline.

Definition renderDataTable (t : DataTable_t) : M unit :=
  datatable ← mapM
    (fun row =>
       mapM (fun cell => styleItem 0 DataTableContent [orElse (value cell) ""])
            (default [] (cells row)))
    (rows t);
  logItem DataTable [cliTable tableFrameChar datatable];;
  newline.

Definition onTestStepStarted (testStepStarted : TestStepStarted) : M unit :=
  attempt ← eventDataCollector_getTestCaseAttempt
              (orElse (testCaseStartedId testStepStarted) "");
  let pickleStepMap := getPickleStepMap (pickle attempt) in
  let gherkinStepMap := getGherkinStepMap (gherkinDocument attempt) in
  let testStep :=
    find (fun item => String.eqb (testStep_id item) (testStepId testStepStarted))
         (default [] (testSteps (testCase attempt))) in
  match testStep with
  | Some testStep =>
      when (truthy (pickleStepId testStep))
        (let pickleStep :=
           pickleStepMap !! orElse (pickleStepId testStep) "" in
         ids ← prop pickleStep pickleStep_astNodeIds "pickleStep.astNodeIds";
         let astNodeId := key0 ids in
         let gherkinStep := gherkinStepMap !! astNodeId in
         keyword ← prop gherkinStep step_keyword "gherkinStep.keyword";
         logItem StepKeyword [keyword];;
         log " ";;
         text ← prop pickleStep pickleStep_text "pickleStep.text";
         logItem StepText [text];;
         newline;;
         docString ← prop gherkinStep docString "gherkinStep.docString";
         from_option renderDocString (mret tt) docString;;
         dataTable ← prop gherkinStep dataTable "gherkinStep.dataTable";
         from_option renderDataTable (mret tt) dataTable)
  | None => mret tt
  end.

Definition onTestStepFinished (testStepFinished : TestStepFinished)
  : M unit :=
  let message := r ← testStepResult testStepFinished; message r in
  let status := r ← testStepResult testStepFinished; status r in
  match status with
  | Some status =>
      when (negb (bool_decide (status = PASSED)))
        (logItem StepStatus
           [forStatus status
              (marks status ++ " " ++ toLowerCase (Status_name status))];;
         newline;;
         when (truthy message)
           (logItem StepMessage [orElse message ""];;
            newline))
  | None => mret tt
  end.

Definition onTestCaseFinished (_testCaseFinished : TestCaseFinished)
  : M unit :=
  newline.

Definition parseEnvelope (envelope : Envelope) : M unit :=
  from_option onTestCaseStarted (mret tt) (testCaseStarted envelope);;
  from_option onTestStepStarted (mret tt) (testStepStarted envelope);;
  from_option onTestStepFinished (mret tt) (testStepFinished envelope);;
  from_option onTestCaseFinished (mret tt) (testCaseFinished envelope).

(** The broadcaster hands the envelopes over one at a time.  A [Session] is
    the formatter between two envelopes with all it has written so far;
    [deliver] is the session after one more envelope, whether [parseEnvelope]
    returned or raised: the object stays as the handler left it. *)
Record Session : Type := {
  formatter : Formatter;
  out : list string;
  calls : list Call
}.

Definition start : Session :=
  {| formatter := fresh; out := []; calls := [] |}.

Definition deliver (s : Session) (envelope : Envelope) : Session :=
  let e := parseEnvelope envelope (formatter s) in
  {| formatter := after e; out := out s ++ text e;
     calls := calls s ++ entered e |}.

Definition run (stream : list Envelope) (s : Session) : Session :=
  fold_left deliver stream s.

End PrettyFormatter.

Arguments renderTags : simpl never.
Arguments renderLocation : simpl never.
Arguments renderFeatureHead : simpl never.
Arguments renderRule : simpl never.
Arguments renderScenarioHead : simpl never.
Arguments enterDocument : simpl never.
Arguments enterRule : simpl never.
Arguments onTestCaseStarted : simpl never.
Arguments onTestStepStarted : simpl never.
Arguments onTestStepFinished : simpl never.
Arguments onTestCaseFinished : simpl never.

(** ** The vocabulary of the statements *)

Section Vocabulary.

Context {host : Host}.

(** [quiet m]: [m] leaves the fields alone and enters no head routine; all it
    may do is log and raise.  [total m]: [m] never raises. *)
Definition quiet {A} (m : M A) : Prop :=
  forall fm, after (m fm) = fm /\ entered (m fm) = [].

Definition total {A} (m : M A) : Prop :=
  forall fm, exists a, result (m fm) = Returns a.

(** The effect of doing nothing. *)
Definition nothing (fm : Formatter) : Effect unit :=
  {| result := Returns tt; after := fm; text := []; entered := [] |}.

Definition call_at (r : Routine) (fm : Formatter) : Call :=
  {| routine := r; at_uri := uri fm; at_offset := indentOffset fm |}.

(** The fields after a change of document. *)
Definition opened (d : GherkinDocument) : Formatter :=
  {| uri := Some (orElse (doc_uri d) ""); lastRuleId := None;
     indentOffset := 0 |}.

(** The fields while the rule head is rendered, and after the change of
    rule. *)
Definition flush (fm : Formatter) : Formatter :=
  {| uri := uri fm; lastRuleId := lastRuleId fm; indentOffset := 0 |}.

Definition nested (r : Rule) (fm : Formatter) : Formatter :=
  {| uri := uri fm; lastRuleId := Some (rule_id r); indentOffset := 2 |}.

(** What the two changes and the whole of [onTestCaseStarted] do to the
    fields and to the journal, with the text left out. *)
Definition docStep (d : GherkinDocument) (fm : Formatter)
  : Formatter * list Call :=
  match feature d with
  | Some _ =>
      if decide (uri fm = doc_uri d) then (fm, [])
      else (opened d, [call_at FeatureHead (opened d)])
  | None => (fm, [])
  end.

Definition ruleStep (o : option Rule) (fm : Formatter)
  : Formatter * list Call :=
  match o with
  | Some r =>
      if decide (Some (rule_id r) = lastRuleId fm) then (fm, [])
      else (nested r fm, [call_at (RuleHead (rule_id r)) (flush fm)])
  | None => (fm, [])
  end.

Definition caseStep (att : TestCaseAttempt) (fm : Formatter)
  : Formatter * list Call :=
  let d := gherkinDocument att in
  let s1 := docStep d fm in
  match astNodeIds (pickle att) with
  | None => s1
  | Some ids =>
      let s2 := ruleStep (getGherkinExampleRuleMap d !! key0 ids) s1.1 in
      (s2.1, (s1.2 ++ (s2.2 ++ [call_at ScenarioHead s2.1]))%list)
  end.

Definition track (fm : Formatter) (e : Envelope) : Formatter * list Call :=
  match testCaseStarted e with
  | Some tcs =>
      match getTestCaseAttempt (orElse (testCaseStarted_id tcs) "") with
      | Some att => caseStep att fm
      | None => (fm, [])
      end
  | None => (fm, [])
  end.

(** The fields follow the last rule: the offset is 2 exactly while a rule is
    remembered. *)
Definition offset_ok (fm : Formatter) : Prop :=
  indentOffset fm = match lastRuleId fm with Some _ => 2 | None => 0 end.

(** A head of a feature or of a rule is entered at offset 0; a scenario head
    at 0 or 2. *)
Definition call_ok (c : Call) : Prop :=
  match routine c with
  | ScenarioHead => at_offset c = 0 \/ at_offset c = 2
  | _ => at_offset c = 0
  end.

Definition countIf (p : Call -> bool) (j : list Call) : nat :=
  length (List.filter p j).

Definition isFeatureHead (c : Call) : bool :=
  match routine c with FeatureHead => true | _ => false end.

Definition isRuleHead (c : Call) : bool :=
  match routine c with RuleHead _ => true | _ => false end.

(** How many times the head [r] (the feature head, or the head of the rule
    of a given identifier) was rendered for the document of URI [u]. *)
Definition heads (r : Routine) (u : option string) (j : list Call) : nat :=
  countIf (fun c => bool_decide (routine c = r /\ at_uri c = u)) j.

(** An envelope stays in the document [d] when the attempt it starts, if it
    starts one that the collector knows, is an attempt of [d]; it stays under
    the rule [rid] when, moreover, the rule found for the pickle, if one is
    found, is [rid]. *)
Definition inDocument (d : GherkinDocument) (e : Envelope) : Prop :=
  forall tcs att,
    testCaseStarted e = Some tcs ->
    getTestCaseAttempt (orElse (testCaseStarted_id tcs) "") = Some att ->
    gherkinDocument att = d.

Definition underRule (d : GherkinDocument) (rid : string) (e : Envelope)
  : Prop :=
  forall tcs att ids r,
    testCaseStarted e = Some tcs ->
    getTestCaseAttempt (orElse (testCaseStarted_id tcs) "") = Some att ->
    astNodeIds (pickle att) = Some ids ->
    getGherkinExampleRuleMap d !! key0 ids = Some r ->
    rule_id r = rid.

(** How many feature heads a stretch in the document of URI [u] may still
    render: one until the document is the current one. *)
Definition featureDue (u : string) (fm : Formatter) : nat :=
  if decide (uri fm = Some u) then 0 else 1.

(** How many rule heads a stretch in [d] under [rid] may still render. *)
Definition ruleDue (d : GherkinDocument) (u rid : string) (fm : Formatter)
  : nat :=
  if decide (uri fm = Some u) then
    if decide (lastRuleId fm = Some rid) then 0 else 1
  else
    match feature d with
    | Some _ => 1
    | None => if decide (lastRuleId fm = Some rid) then 0 else 1
    end.

(** The indentation [styleItem] asks of the theme for an item of base
    indentation [base]. *)
Definition indented (base : Z) (fm : Formatter) : Z :=
  if ((base >? 0) && (indentOffset fm >? 0))%bool
  then base + indentOffset fm else base.

(** The lowercased names of the statuses. *)
Definition statusWord (s : Status) : string :=
  match s with
  | AMBIGUOUS => "ambiguous" | FAILED => "failed" | PASSED => "passed"
  | PENDING => "pending" | SKIPPED => "skipped" | UNDEFINED => "undefined"
  | UNKNOWN => "unknown"
  end.

(** The status line and the message line, after the words of the
    specification: the mark, a space and the lowercased name, coloured for
    the status; and the message. *)
Definition statusLine (fm : Formatter) (s : Status) : list string :=
  [indentStyleText (indented 4 fm) StepStatus
     [forStatus s (marks s ++ " " ++ statusWord s)%string];
   EOL].

Definition messageLine (fm : Formatter) (m : string) : list string :=
  [indentStyleText (indented 6 fm) StepMessage [m]; EOL].

(** The names that [renderTags] keeps: those of the tags whose name is not
    empty, in the order of the tags. *)
Definition namedTags (tags : list Tag_t) : list string :=
  map tag_name (List.filter (fun t => truthy (Some (tag_name t))) tags).

(** A line of tags: the first name at the indentation asked for, every other
    one after a space and at indentation 0, then the end of line; no line at
    all without a name. *)
Definition tagLine (indent : Z) (tags : list Tag_t) (fm : Formatter)
  : list string :=
  match namedTags tags with
  | [] => []
  | t :: r =>
      indentStyleText (indented indent fm) Tag [t]
      :: flat_map (fun tag => [" "; indentStyleText 0 Tag [tag]]) r
      ++ [EOL]
  end.

(** The reference to a line of the tracked document. *)
Definition locationRef (fm : Formatter) (l : Z) : string :=
  indentStyleText 0 Location ["# "; formatLocation (orElse (uri fm) "") l].

Definition featureHeadText (f : Feature) (fm : Formatter) : list string :=
  tagLine 0 (default [] (feature_tags f)) fm ++
  [indentStyleText 0 FeatureKeyword
     [orElse (feature_keyword f) "[feature]"; ":"];
   " ";
   indentStyleText 0 FeatureName [orElse (feature_name f) ""]] ++
  match feature_location f with
  | Some l => [" "; locationRef fm (lineOr (Some l))]
  | None => []
  end ++
  [EOL] ++
  (if truthy (feature_description f)
   then [EOL;
         indentStyleText (indented 2 fm) FeatureDescription
           [dedent (trim (orElse (feature_description f) ""))];
         EOL]
   else []) ++
  [EOL].

Definition ruleHeadText (r : Rule) : list string :=
  [indentStyleText 2 RuleKeyword [rule_keyword r; ":"]; " ";
   indentStyleText 0 RuleName [orElse (rule_name r) ""]; EOL; EOL].

Definition scenarioHeadText (p : Pickle) (sc : Scenario) (fm : Formatter)
  : list string :=
  tagLine 2 (default [] (pickle_tags p)) fm ++
  [indentStyleText (indented 2 fm) ScenarioKeyword
     [orElse (scenario_keyword sc) "???"; ":"];
   " ";
   indentStyleText 0 ScenarioName [orElse (pickle_name p) ""];
   " ";
   locationRef fm (lineOr (scenario_location sc));
   EOL].

Definition docStringText (d : DocString) (fm : Formatter) : list string :=
  [indentStyleText (indented 6 fm) DocStringDelimiter [delimiter d]; EOL;
   indentStyleText (indented 6 fm) DocStringContent [content d]; EOL;
   indentStyleText (indented 6 fm) DocStringDelimiter [delimiter d]; EOL].

(** The cells of a data table as they are handed to the table layout. *)
Definition styledRows (t : DataTable_t) : list (list string) :=
  map (fun row =>
         map (fun cell =>
                indentStyleText 0 DataTableContent [orElse (value cell) ""])
             (default [] (cells row)))
      (rows t).

Definition dataTableText (t : DataTable_t) (fm : Formatter) : list string :=
  [indentStyleText (indented 6 fm) DataTable
     [cliTable tableFrameChar (styledRows t)];
   EOL].

Definition stepText (ps : PickleStep) (gs : Step) (fm : Formatter)
  : list string :=
  [indentStyleText (indented 4 fm) StepKeyword [step_keyword gs]; " ";
   indentStyleText 0 StepText [pickleStep_text ps]; EOL] ++
  from_option (fun d => docStringText d fm) [] (docString gs) ++
  from_option (fun t => dataTableText t fm) [] (dataTable gs).

(** An envelope that starts an attempt of a document with a feature but
    without a URI. *)
Definition startsNameless (e : Envelope) : Prop :=
  exists tcs att,
    testCaseStarted e = Some tcs /\
    getTestCaseAttempt (orElse (testCaseStarted_id tcs) "") = Some att /\
    doc_uri (gherkinDocument att) = None /\
    is_Some (feature (gherkinDocument att)).

End Vocabulary.

(** ** A host to run the formatter on *)

Module Demo.

(** The helpers of [@cucumber/cucumber], written after what they return: the
    scenarios of a feature, directly under it or under one of its rules, by
    identifier; the rule of every scenario that has one; the steps of all
    scenarios; the steps of a pickle.  [fromPairs] lets a later pair win. *)
Definition fromPairs {A} (l : list (string * A)) : gmap string A :=
  list_to_map (rev l).

Definition scenariosOf (c : FeatureChild) : list Scenario :=
  match c with
  | ChildScenario s => [s]
  | ChildRule r => rule_children r
  end.

Definition childrenOf (d : GherkinDocument) : list FeatureChild :=
  from_option feature_children [] (feature d).

Definition scenarioMap (d : GherkinDocument) : gmap string Scenario :=
  fromPairs
    (map (fun s => (scenario_id s, s)) (flat_map scenariosOf (childrenOf d))).

Definition exampleRuleMap (d : GherkinDocument) : gmap string Rule :=
  fromPairs
    (flat_map
       (fun c =>
          match c with
          | ChildScenario _ => []
          | ChildRule r => map (fun s => (scenario_id s, r)) (rule_children r)
          end)
       (childrenOf d)).

Definition stepMap (d : GherkinDocument) : gmap string Step :=
  fromPairs
    (map (fun s => (step_id s, s))
       (flat_map scenario_steps (flat_map scenariosOf (childrenOf d)))).

Definition pickleStepMap (p : Pickle) : gmap string PickleStep :=
  fromPairs (map (fun s => (pickleStep_id s, s)) (pickle_steps p)).

Fixpoint spaces (k : nat) : string :=
  match k with
  | O => ""
  | S k => String " " (spaces k)
  end.

(** Modelled from the spec: the theme of [./theme] with styling disabled
    (an empty style table), which joins the fragments and puts [indent]
    spaces in front. *)
Definition plainIndentStyleText (indent : Z) (item : ThemeItem)
    (text : list string) : string :=
  spaces (Z.to_nat indent) ++ String.concat "" text.

Definition showLine (l : Z) : string :=
  if Z.ltb l 0 then "-" ++ pretty (Z.to_N (- l)) else pretty (Z.to_N l).

(* Documents. *)

Definition given_a : Step :=
  {| step_id := "g1"; step_keyword := "Given"; docString := None;
     dataTable := None |}.

Definition S1 : Scenario :=
  {| scenario_id := "s1"; scenario_keyword := Some "Scenario";
     scenario_location := Some {| line := 3 |};
     scenario_steps := [given_a] |}.

Definition S2 : Scenario :=
  {| scenario_id := "s2"; scenario_keyword := Some "Scenario Outline";
     scenario_location := Some {| line := 8 |}; scenario_steps := [] |}.

Definition S3 : Scenario :=
  {| scenario_id := "s3"; scenario_keyword := Some "Example";
     scenario_location := Some {| line := 15 |}; scenario_steps := [] |}.

Definition R1 : Rule :=
  {| rule_id := "r1"; rule_keyword := "Rule"; rule_name := Some "first";
     rule_children := [S2] |}.

Definition R2 : Rule :=
  {| rule_id := "r2"; rule_keyword := "Rule"; rule_name := Some "second";
     rule_children := [S3] |}.

Definition F : Feature :=
  {| feature_tags := Some [{| tag_name := "@smoke" |}];
     feature_keyword := Some "Feature"; feature_name := Some "F";
     feature_location := Some {| line := 1 |};
     feature_description := None;
     feature_children := [ChildScenario S1; ChildRule R1; ChildRule R2] |}.

Definition T1 : Scenario :=
  {| scenario_id := "t1"; scenario_keyword := Some "Scenario";
     scenario_location := Some {| line := 2 |}; scenario_steps := [] |}.

Definition G : Feature :=
  {| feature_tags := None; feature_keyword := Some "Feature";
     feature_name := Some "G"; feature_location := None;
     feature_description := None;
     feature_children := [ChildScenario T1] |}.

Definition docX : GherkinDocument :=
  {| doc_uri := Some "x.feature"; feature := Some F |}.

Definition docY : GherkinDocument :=
  {| doc_uri := Some "y.feature"; feature := Some G |}.

(** A document in which no feature was found. *)
Definition docZ : GherkinDocument :=
  {| doc_uri := Some "z.feature"; feature := None |}.

(* Pickles and test cases. *)

Definition pickleOf (name : string) (ids : option (list string)) : Pickle :=
  {| pickle_name := Some name; pickle_tags := Some []; astNodeIds := ids;
     pickle_steps := [] |}.

Definition pickleS1 : Pickle :=
  {| pickle_name := Some "S1"; pickle_tags := Some [];
     astNodeIds := Some ["s1"];
     pickle_steps :=
       [{| pickleStep_id := "ps1"; pickleStep_astNodeIds := ["g1"];
           pickleStep_text := "a" |}] |}.

(** The test case of [S1]: a hook, the step of the pickle, and a step whose
    pickle step is unknown to the pickle. *)
Definition caseS1 : TestCase :=
  {| testSteps :=
       Some [ {| testStep_id := "hook1"; pickleStepId := None |};
              {| testStep_id := "step1"; pickleStepId := Some "ps1" |};
              {| testStep_id := "step9"; pickleStepId := Some "ps9" |} ] |}.

Definition noSteps : TestCase := {| testSteps := None |}.

Definition attempts : gmap string TestCaseAttempt :=
  list_to_map
    [ ("A", {| gherkinDocument := docX; pickle := pickleS1;
               testCase := caseS1 |});
      ("B", {| gherkinDocument := docX;
               pickle := pickleOf "S2" (Some ["s2"; "row1"]);
               testCase := noSteps |});
      ("B2", {| gherkinDocument := docX;
                pickle := pickleOf "S2" (Some ["s2"; "row2"]);
                testCase := noSteps |});
      ("B3", {| gherkinDocument := docX;
                pickle := pickleOf "S3" (Some ["s3"]);
                testCase := noSteps |});
      ("C", {| gherkinDocument := docY;
               pickle := pickleOf "T1" (Some ["t1"]);
               testCase := noSteps |});
      ("D", {| gherkinDocument := docZ;
               pickle := pickleOf "lost" (Some ["q1"]);
               testCase := noSteps |});
      ("E", {| gherkinDocument := docY;
               pickle := pickleOf "unlinked" None;
               testCase := noSteps |});
      ("E0", {| gherkinDocument := docY;
                pickle := pickleOf "empty" (Some []);
                testCase := noSteps |});
      ("G", {| gherkinDocument := docX;
               pickle := pickleOf "dangling" (Some ["nowhere"]);
               testCase := noSteps |}) ].

Definition demo : Host := {|
  getTestCaseAttempt := fun id => attempts !! id;
  getGherkinExampleRuleMap := exampleRuleMap;
  getGherkinScenarioMap := scenarioMap;
  getGherkinStepMap := stepMap;
  getPickleStepMap := pickleStepMap;
  formatLocation := fun uri line => uri ++ ":" ++ showLine line;
  indentStyleText := plainIndentStyleText;
  forStatus := fun _ text => text;
  cliTable := fun frame rows =>
    String.concat "
" (map (fun row => frame ++ String.concat frame row ++ frame) rows);
  tick := "v";
  cross := "x";
  dedent := fun s => s;
  trim := fun s => s;
  EOL := "
"
|}.

End Demo.

(** ** A second host, with the documents the first one lacks *)

Module Demo2.

Import Demo.

(** A step with a doc string and a data table, one row of which has no
    cells and one cell of which has no value. *)
Definition when_it_works : Step :=
  {| step_id := "gt"; step_keyword := "When";
     docString := Some {| delimiter := "```"; content := "body" |};
     dataTable :=
       Some {| rows :=
                 [ {| cells := Some [ {| value := Some "a" |};
                                      {| value := Some "b" |} ] |};
                   {| cells := None |};
                   {| cells := Some [ {| value := None |} ] |} ] |} |}.

Definition ST : Scenario :=
  {| scenario_id := "st"; scenario_keyword := None;
     scenario_location := None; scenario_steps := [when_it_works] |}.

Definition FT : Feature :=
  {| feature_tags := Some [];
     feature_keyword := None; feature_name := None;
     feature_location := Some {| line := 0 |};
     feature_description := Some "about";
     feature_children := [ChildScenario ST] |}.

Definition docT : GherkinDocument :=
  {| doc_uri := Some "t.feature"; feature := Some FT |}.

Definition pickleT : Pickle :=
  {| pickle_name := None;
     pickle_tags := Some [ {| tag_name := "@a" |}; {| tag_name := "" |};
                           {| tag_name := "@b" |} ];
     astNodeIds := Some ["st"];
     pickle_steps :=
       [{| pickleStep_id := "pt"; pickleStep_astNodeIds := ["gt"];
           pickleStep_text := "it works" |}] |}.

(** A document with a feature and without a URI. *)
Definition docN : GherkinDocument :=
  {| doc_uri := None; feature := Some G |}.

(** A pickle of "y.feature" whose only step points to no step of the
    document. *)
Definition pickleH : Pickle :=
  {| pickle_name := Some "T1"; pickle_tags := Some [];
     astNodeIds := Some ["t1"];
     pickle_steps :=
       [{| pickleStep_id := "ph"; pickleStep_astNodeIds := ["ghost"];
           pickleStep_text := "lost" |}] |}.

Definition attempts2 : gmap string TestCaseAttempt :=
  list_to_map
    [ ("T", {| gherkinDocument := docT; pickle := pickleT;
               testCase := {| testSteps :=
                 Some [{| testStep_id := "stepT";
                          pickleStepId := Some "pt" |}] |} |});
      ("N", {| gherkinDocument := docN;
               pickle := pickleOf "T1" (Some ["t1"]);
               testCase := noSteps |});
      ("H", {| gherkinDocument := docY; pickle := pickleH;
               testCase := {| testSteps :=
                 Some [{| testStep_id := "stepH";
                          pickleStepId := Some "ph" |}] |} |}) ].

(** The host [demo] with these attempts added to its own. *)
Definition demo2 : Host := {|
  getTestCaseAttempt := fun id =>
    match attempts2 !! id with
    | Some a => Some a
    | None => @getTestCaseAttempt demo id
    end;
  getGherkinExampleRuleMap := @getGherkinExampleRuleMap demo;
  getGherkinScenarioMap := @getGherkinScenarioMap demo;
  getGherkinStepMap := @getGherkinStepMap demo;
  getPickleStepMap := @getPickleStepMap demo;
  formatLocation := @formatLocation demo;
  indentStyleText := @indentStyleText demo;
  forStatus := @forStatus demo;
  cliTable := @cliTable demo;
  tick := @tick demo;
  cross := @cross demo;
  dedent := @dedent demo;
  trim := @trim demo;
  EOL := @EOL demo
|}.

(** An envelope that starts the attempt "G" and also finishes a test
    case. *)
Definition startAndFinish : Envelope :=
  {| testCaseStarted := Some {| testCaseStarted_id := Some "G" |};
     testStepStarted := None; testStepFinished := None;
     testCaseFinished := Some {| testCaseFinished_id := Some "G" |} |}.

(** An envelope that finishes a step, which failed with a message, and the
    test case at once. *)
Definition failAndFinish : Envelope :=
  {| testCaseStarted := None; testStepStarted := None;
     testStepFinished :=
       Some {| testStepResult :=
                 Some {| message := Some "boom"; status := Some FAILED |} |};
     testCaseFinished := Some {| testCaseFinished_id := None |} |}.

End Demo2.

(** ** A third host, with a node called "undefined" *)

Module Demo3.

Import Demo.

Definition SU : Scenario :=
  {| scenario_id := "undefined"; scenario_keyword := Some "Example";
     scenario_location := Some {| line := 4 |}; scenario_steps := [] |}.

Definition RU : Rule :=
  {| rule_id := "ru"; rule_keyword := "Rule"; rule_name := Some "odd";
     rule_children := [SU] |}.

Definition FU : Feature :=
  {| feature_tags := None; feature_keyword := Some "Feature";
     feature_name := Some "U"; feature_location := None;
     feature_description := None; feature_children := [ChildRule RU] |}.

Definition docU : GherkinDocument :=
  {| doc_uri := Some "u.feature"; feature := Some FU |}.

(** The attempt "U": a pickle of "u.feature" with an empty list of
    identifiers. *)
Definition attemptU : TestCaseAttempt :=
  {| gherkinDocument := docU; pickle := pickleOf "U1" (Some []);
     testCase := noSteps |}.

Definition demo3 : Host := {|
  getTestCaseAttempt := fun id =>
    if String.eqb id "U" then Some attemptU
    else @getTestCaseAttempt demo id;
  getGherkinExampleRuleMap := @getGherkinExampleRuleMap demo;
  getGherkinScenarioMap := @getGherkinScenarioMap demo;
  getGherkinStepMap := @getGherkinStepMap demo;
  getPickleStepMap := @getPickleStepMap demo;
  formatLocation := @formatLocation demo;
  indentStyleText := @indentStyleText demo;
  forStatus := @forStatus demo;
  cliTable := @cliTable demo;
  tick := @tick demo;
  cross := @cross demo;
  dedent := @dedent demo;
  trim := @trim demo;
  EOL := @EOL demo
|}.

End Demo3.

(** * Properties *)

Local Open Scope list_scope.

(** ** What a piece of a method can touch *)

Lemma bind_returns {A B} (m : M A) (k : A -> M B) fm a :
  result (m fm) = Returns a ->
  (m ≫= k) fm =
  {| result := result (k a (after (m fm)));
     after := after (k a (after (m fm)));
     text := text (m fm) ++ text (k a (after (m fm)));
     entered := entered (m fm) ++ entered (k a (after (m fm))) |}.
Proof. intros E. unfold mbind, M_bind. now rewrite E. Qed.

Lemma bind_throws {A B} (m : M A) (k : A -> M B) fm e :
  result (m fm) = Throws e ->
  (m ≫= k) fm =
  {| result := Throws e; after := after (m fm); text := text (m fm);
     entered := entered (m fm) |}.
Proof. intros E. unfold mbind, M_bind. now rewrite E. Qed.

(** A statement that only reads or assigns fields. *)
Lemma bind_silent {A B} (m : M A) (k : A -> M B) fm a fm' :
  m fm = {| result := Returns a; after := fm'; text := []; entered := [] |} ->
  (m ≫= k) fm = k a fm'.
Proof.
  intros E. unfold mbind, M_bind. rewrite E. cbn [result after text entered].
  now destruct (k a fm').
Qed.

Ltac silent_step := erewrite bind_silent by reflexivity.

Lemma quiet_ret {A} (a : A) : quiet (mret a).
Proof. intros fm. now split. Qed.

Lemma quiet_throw {A} e : quiet (@throw A e).
Proof. intros fm. now split. Qed.

Lemma quiet_this {A} (f : Formatter -> A) : quiet (this f).
Proof. intros fm. now split. Qed.

Lemma quiet_log s : quiet (log s).
Proof. intros fm. now split. Qed.

Lemma quiet_bind {A B} (m : M A) (k : A -> M B) :
  quiet m -> (forall a, quiet (k a)) -> quiet (m ≫= k).
Proof.
  intros Hm Hk fm. destruct (Hm fm) as [Ha He].
  destruct (result (m fm)) as [a|e] eqn:E.
  - rewrite (bind_returns _ _ _ _ E). simpl. rewrite Ha, He.
    destruct (Hk a fm) as [-> ->]. now split.
  - rewrite (bind_throws _ _ _ _ E). simpl. now split.
Qed.

Lemma quiet_prop {A B} (o : option A) (f : A -> B) what :
  quiet (prop o f what).
Proof. destruct o; [apply quiet_ret | apply quiet_throw]. Qed.

Lemma quiet_when b (m : M unit) : quiet m -> quiet (when b m).
Proof. destruct b; [trivial | intros _; apply quiet_ret]. Qed.

Lemma quiet_forEach {A} (f : A -> M unit) xs :
  (forall x, quiet (f x)) -> quiet (forEach f xs).
Proof.
  intros Hf. induction xs as [|x r IH]; simpl.
  - apply quiet_ret.
  - apply quiet_bind; auto.
Qed.

Lemma quiet_mapM {A B} (f : A -> M B) xs :
  (forall x, quiet (f x)) -> quiet (mapM f xs).
Proof.
  intros Hf. induction xs as [|x r IH]; simpl.
  - apply quiet_ret.
  - apply quiet_bind; [apply Hf|]. intros b.
    apply quiet_bind; [apply IH|]. intros bs. apply quiet_ret.
Qed.

Lemma quiet_from_option {A} (f : A -> M unit) (o : option A) :
  (forall a, quiet (f a)) -> quiet (from_option f (mret tt) o).
Proof. intros Hf. destruct o; simpl; [apply Hf | apply quiet_ret]. Qed.

Lemma total_ret {A} (a : A) : total (mret a).
Proof. intros fm. now exists a. Qed.

Lemma total_this {A} (f : Formatter -> A) : total (this f).
Proof. intros fm. now eexists. Qed.

Lemma total_log s : total (log s).
Proof. intros fm. now exists tt. Qed.

Lemma total_enter r : total (enter r).
Proof. intros fm. now exists tt. Qed.

Lemma total_assign fm' : total (assign fm').
Proof. intros fm. now exists tt. Qed.

Lemma total_bind {A B} (m : M A) (k : A -> M B) :
  total m -> (forall a, total (k a)) -> total (m ≫= k).
Proof.
  intros Hm Hk fm. destruct (Hm fm) as [a E].
  rewrite (bind_returns _ _ _ _ E). simpl. apply Hk.
Qed.

Lemma total_when b (m : M unit) : total m -> total (when b m).
Proof. destruct b; [trivial | intros _; apply total_ret]. Qed.

Lemma total_forEach {A} (f : A -> M unit) xs :
  (forall x, total (f x)) -> total (forEach f xs).
Proof.
  intros Hf. induction xs as [|x r IH]; simpl.
  - apply total_ret.
  - apply total_bind; auto.
Qed.

Lemma total_mapM {A B} (f : A -> M B) xs :
  (forall x, total (f x)) -> total (mapM f xs).
Proof.
  intros Hf. induction xs as [|x r IH]; simpl.
  - apply total_ret.
  - apply total_bind; [apply Hf|]. intros b.
    apply total_bind; [apply IH|]. intros bs. apply total_ret.
Qed.

Lemma total_from_option {A} (f : A -> M unit) (o : option A) :
  (forall a, total (f a)) -> total (from_option f (mret tt) o).
Proof. intros Hf. destruct o; simpl; [apply Hf | apply total_ret]. Qed.

Create HintDb footprint discriminated.

#[local] Hint Resolve
  quiet_ret quiet_throw quiet_this quiet_log quiet_prop quiet_when
  quiet_forEach quiet_mapM quiet_from_option
  total_ret total_this total_log total_enter total_assign total_when
  total_forEach total_mapM total_from_option : footprint.

(** Going through a sequence of statements, one bind at a time. *)
Ltac footprint :=
  repeat first
    [ progress intros
    | apply quiet_bind | apply total_bind
    | apply quiet_when | apply total_when
    | solve [eauto with footprint] ].

Section Footprint.

Context {host : Host}.

Lemma quiet_styleItem indent item txt : quiet (styleItem indent item txt).
Proof. unfold styleItem. footprint. Qed.

Lemma total_styleItem indent item txt : total (styleItem indent item txt).
Proof. unfold styleItem. footprint. Qed.

#[local] Hint Resolve quiet_styleItem total_styleItem : footprint.

Lemma quiet_logItem item txt : quiet (logItem item txt).
Proof. unfold logItem. footprint. Qed.

Lemma total_logItem item txt : total (logItem item txt).
Proof. unfold logItem. footprint. Qed.

Lemma quiet_newline : quiet newline.
Proof. apply quiet_log. Qed.

Lemma total_newline : total newline.
Proof. apply total_log. Qed.

#[local] Hint Resolve quiet_logItem total_logItem quiet_newline total_newline
  : footprint.

Lemma quiet_renderTags indent tags : quiet (renderTags indent tags).
Proof. unfold renderTags. destruct (tagStrings tags); footprint. Qed.

Lemma total_renderTags indent tags : total (renderTags indent tags).
Proof. unfold renderTags. destruct (tagStrings tags); footprint. Qed.

Lemma quiet_renderLocation l : quiet (renderLocation l).
Proof. unfold renderLocation. footprint. Qed.

Lemma total_renderLocation l : total (renderLocation l).
Proof. unfold renderLocation. footprint. Qed.

#[local] Hint Resolve quiet_renderTags total_renderTags quiet_renderLocation
  total_renderLocation : footprint.

Lemma quiet_renderDocString d : quiet (renderDocString d).
Proof. unfold renderDocString. footprint. Qed.

Lemma quiet_renderDataTable t : quiet (renderDataTable t).
Proof. unfold renderDataTable. footprint. Qed.

Lemma quiet_onTestStepStarted e : quiet (onTestStepStarted e).
Proof.
  unfold onTestStepStarted, eventDataCollector_getTestCaseAttempt.
  apply quiet_bind; [destruct (getTestCaseAttempt _); footprint|].
  intros att. destruct (find _ _); [|footprint].
  apply quiet_when. footprint.
  all: apply quiet_from_option;
    first [apply quiet_renderDocString | apply quiet_renderDataTable].
Qed.

Lemma quiet_onTestStepFinished e : quiet (onTestStepFinished e).
Proof.
  unfold onTestStepFinished. destruct (_ ≫= status); footprint.
Qed.

Lemma total_onTestStepFinished e : total (onTestStepFinished e).
Proof.
  unfold onTestStepFinished. destruct (_ ≫= status); footprint.
Qed.

Lemma quiet_onTestCaseFinished e : quiet (onTestCaseFinished e).
Proof. apply quiet_newline. Qed.

End Footprint.

(** ** The three heads and the two changes *)

Section Heads.

Context {host : Host}.

#[local] Hint Resolve quiet_styleItem total_styleItem quiet_logItem
  total_logItem quiet_newline total_newline quiet_renderTags
  total_renderTags quiet_renderLocation total_renderLocation : footprint.

Lemma enter_bind r (m : M unit) fm :
  (enter r ;; m) fm =
  {| result := result (m fm); after := after (m fm); text := text (m fm);
     entered := call_at r fm :: entered (m fm) |}.
Proof. reflexivity. Qed.

Lemma returns_tt (m : M unit) fm : total m -> result (m fm) = Returns tt.
Proof. intros H. destruct (H fm) as [[] E]. exact E. Qed.

(** The feature head never raises, leaves the fields alone and is entered
    once. *)
Lemma renderFeatureHead_spec f fm :
  result (renderFeatureHead f fm) = Returns tt /\
  after (renderFeatureHead f fm) = fm /\
  entered (renderFeatureHead f fm) = [call_at FeatureHead fm].
Proof.
  unfold renderFeatureHead. rewrite enter_bind. cbn [result after entered].
  match goal with |- context [result (?m fm)] =>
    assert (Hq : quiet m) by footprint;
    assert (Ht : total m) by footprint;
    destruct (Hq fm) as [-> ->]; rewrite (returns_tt m fm Ht)
  end.
  auto.
Qed.

Lemma renderRule_spec r fm :
  result (renderRule r fm) = Returns tt /\
  after (renderRule r fm) = fm /\
  entered (renderRule r fm) = [call_at (RuleHead (rule_id r)) fm].
Proof.
  unfold renderRule. rewrite enter_bind. cbn [result after entered].
  match goal with |- context [result (?m fm)] =>
    assert (Hq : quiet m) by footprint;
    assert (Ht : total m) by footprint;
    destruct (Hq fm) as [-> ->]; rewrite (returns_tt m fm Ht)
  end.
  auto.
Qed.

(** The scenario head may raise, but it too leaves the fields alone. *)
Lemma renderScenarioHead_spec d p fm :
  after (renderScenarioHead d p fm) = fm /\
  entered (renderScenarioHead d p fm) = [call_at ScenarioHead fm].
Proof.
  unfold renderScenarioHead. rewrite enter_bind. cbn [result after entered].
  match goal with |- context [after (?m fm)] =>
    assert (Hq : quiet m)
  end.
  { apply quiet_bind; [footprint|]. intros _.
    destruct (astNodeIds p); footprint. }
  destruct (Hq fm) as [-> ->]. auto.
Qed.

Lemma enterDocument_changes d f fm :
  feature d = Some f -> uri fm <> doc_uri d ->
  enterDocument d fm = renderFeatureHead f (opened d).
Proof.
  intros Hf Hu. unfold enterDocument. silent_step.
  rewrite Hf, bool_decide_eq_false_2 by exact Hu. cbn [negb when].
  now do 3 silent_step.
Qed.

Lemma enterDocument_stays d fm :
  feature d = None \/ uri fm = doc_uri d ->
  enterDocument d fm = nothing fm.
Proof.
  intros H. unfold enterDocument. silent_step.
  destruct (feature d) as [f|]; [|reflexivity].
  destruct H as [H|H]; [discriminate|].
  now rewrite bool_decide_eq_true_2 by exact H.
Qed.

Lemma total_enterDocument d : total (enterDocument d).
Proof.
  intros fm. exists tt.
  destruct (feature d) as [f|] eqn:Hf.
  - destruct (decide (uri fm = doc_uri d)) as [E|N].
    + now rewrite enterDocument_stays by auto.
    + rewrite (enterDocument_changes d f) by auto.
      apply renderFeatureHead_spec.
  - now rewrite enterDocument_stays by auto.
Qed.

Lemma enterRule_changes r fm :
  Some (rule_id r) <> lastRuleId fm ->
  enterRule (Some r) fm =
  {| result := Returns tt; after := nested r fm;
     text := text (renderRule r (flush fm));
     entered := [call_at (RuleHead (rule_id r)) (flush fm)] |}.
Proof.
  intros Hn. unfold enterRule. silent_step.
  rewrite bool_decide_eq_false_2 by exact Hn. cbn [negb when].
  silent_step. fold (flush fm).
  destruct (renderRule_spec r (flush fm)) as (Hr & Ha & He).
  rewrite (bind_returns (renderRule r) _ _ tt Hr), Ha, He. cbv beta.
  silent_step. cbn [result after text entered mret M_ret].
  now rewrite !app_nil_r.
Qed.

Lemma enterRule_stays o fm :
  (forall r, o = Some r -> Some (rule_id r) = lastRuleId fm) ->
  enterRule o fm = nothing fm.
Proof.
  intros H. unfold enterRule. silent_step.
  destruct o as [r|]; [|reflexivity].
  now rewrite bool_decide_eq_true_2 by auto.
Qed.

Lemma total_enterRule o : total (enterRule o).
Proof.
  intros fm. exists tt. destruct o as [r|].
  - destruct (decide (Some (rule_id r) = lastRuleId fm)) as [E|N].
    + rewrite enterRule_stays; [reflexivity|]. now intros ? [= <-].
    + now rewrite enterRule_changes.
  - now rewrite enterRule_stays.
Qed.

(** [onTestCaseStarted], statement by statement. *)
Lemma onTestCaseStarted_unfold tcs att fm :
  getTestCaseAttempt (orElse (testCaseStarted_id tcs) "") = Some att ->
  onTestCaseStarted tcs fm =
  let d := gherkinDocument att in
  let e1 := enterDocument d fm in
  match astNodeIds (pickle att) with
  | None =>
      {| result := Throws (Error "Pickle AST nodes missing");
         after := after e1; text := text e1; entered := entered e1 |}
  | Some ids =>
      let e2 := enterRule (getGherkinExampleRuleMap d !! key0 ids)
                  (after e1) in
      let e3 := renderScenarioHead d (pickle att) (after e2) in
      {| result := result e3; after := after e3;
         text := text e1 ++ (text e2 ++ text e3);
         entered := entered e1 ++ (entered e2 ++ entered e3) |}
  end.
Proof.
  intros Hatt. unfold onTestCaseStarted,
    eventDataCollector_getTestCaseAttempt.
  rewrite Hatt. silent_step.
  set (d := gherkinDocument att).
  rewrite (bind_returns (enterDocument d) _ fm tt)
    by (apply returns_tt, total_enterDocument).
  destruct (astNodeIds (pickle att)) as [ids|];
    cbn [result after text entered throw].
  - rewrite (bind_returns (enterRule _) _ _ tt)
      by (apply returns_tt, total_enterRule).
    reflexivity.
  - now rewrite !app_nil_r.
Qed.

Lemma onTestCaseStarted_unknown tcs fm :
  getTestCaseAttempt (orElse (testCaseStarted_id tcs) "") = None ->
  after (onTestCaseStarted tcs fm) = fm /\
  text (onTestCaseStarted tcs fm) = [] /\
  entered (onTestCaseStarted tcs fm) = [].
Proof.
  intros Hatt. unfold onTestCaseStarted,
    eventDataCollector_getTestCaseAttempt.
  rewrite Hatt. now rewrite (bind_throws (throw _) _ fm _) by reflexivity.
Qed.

End Heads.

(** ** The fields and the journal along a stream *)

Section Tracking.

Context {host : Host}.

Lemma enterDocument_fields d fm :
  (after (enterDocument d fm), entered (enterDocument d fm)) = docStep d fm.
Proof.
  unfold docStep. destruct (feature d) as [f|] eqn:Hf.
  - destruct (decide (uri fm = doc_uri d)) as [E|N].
    + now rewrite enterDocument_stays by auto.
    + rewrite (enterDocument_changes d f) by auto.
      now destruct (renderFeatureHead_spec f (opened d)) as (_ & -> & ->).
  - now rewrite enterDocument_stays by auto.
Qed.

Lemma enterRule_fields o fm :
  (after (enterRule o fm), entered (enterRule o fm)) = ruleStep o fm.
Proof.
  unfold ruleStep. destruct o as [r|].
  - destruct (decide (Some (rule_id r) = lastRuleId fm)) as [E|N].
    + rewrite enterRule_stays; [reflexivity|]. now intros ? [= <-].
    + now rewrite enterRule_changes.
  - now rewrite enterRule_stays.
Qed.

Lemma onTestCaseStarted_fields tcs att fm :
  getTestCaseAttempt (orElse (testCaseStarted_id tcs) "") = Some att ->
  (after (onTestCaseStarted tcs fm), entered (onTestCaseStarted tcs fm)) =
  caseStep att fm.
Proof.
  intros Hatt. rewrite (onTestCaseStarted_unfold tcs att fm Hatt).
  unfold caseStep. cbv zeta.
  set (d := gherkinDocument att).
  pose proof (enterDocument_fields d fm) as H1.
  destruct (astNodeIds (pickle att)) as [ids|];
    cbn [after entered]; [|exact H1].
  set (o := getGherkinExampleRuleMap d !! key0 ids).
  pose proof (enterRule_fields o (after (enterDocument d fm))) as H2.
  destruct (renderScenarioHead_spec d (pickle att)
              (after (enterRule o (after (enterDocument d fm)))))
    as [-> ->].
  rewrite <- H1. cbn [fst snd]. rewrite <- H2. reflexivity.
Qed.

Lemma bind_quiet_tail {A B} (m : M A) (k : A -> M B) fm :
  (forall a, quiet (k a)) ->
  after ((m ≫= k) fm) = after (m fm) /\
  entered ((m ≫= k) fm) = entered (m fm).
Proof.
  intros Hk. destruct (result (m fm)) as [a|e] eqn:E.
  - rewrite (bind_returns _ _ _ _ E). cbn [after entered].
    destruct (Hk a (after (m fm))) as [-> ->]. now rewrite app_nil_r.
  - now rewrite (bind_throws _ _ _ _ E).
Qed.

Lemma parseEnvelope_fields e fm :
  (after (parseEnvelope e fm), entered (parseEnvelope e fm)) = track fm e.
Proof.
  unfold parseEnvelope, track.
  match goal with |- context [(?m ≫= ?k) fm] =>
    destruct (bind_quiet_tail m k fm) as [-> ->]
  end.
  { intros _. apply quiet_bind;
      [apply quiet_from_option, quiet_onTestStepStarted|].
    intros _. apply quiet_bind;
      [apply quiet_from_option, quiet_onTestStepFinished|].
    intros _. apply quiet_from_option, quiet_onTestCaseFinished. }
  destruct (testCaseStarted e) as [tcs|]; cbn [from_option]; [|reflexivity].
  destruct (getTestCaseAttempt _) as [att|] eqn:Hatt.
  - now apply onTestCaseStarted_fields.
  - now destruct (onTestCaseStarted_unknown tcs fm Hatt) as (-> & _ & ->).
Qed.

Lemma deliver_track s e :
  formatter (deliver s e) = (track (formatter s) e).1 /\
  calls (deliver s e) = (calls s ++ (track (formatter s) e).2)%list.
Proof.
  rewrite <- parseEnvelope_fields. now unfold deliver.
Qed.

Lemma offset_ok_cases fm :
  offset_ok fm -> indentOffset fm = 0 \/ indentOffset fm = 2.
Proof. unfold offset_ok. destruct (lastRuleId fm); auto. Qed.

Lemma docStep_ok d fm :
  offset_ok fm ->
  offset_ok (docStep d fm).1 /\ Forall call_ok (docStep d fm).2.
Proof.
  intros H. unfold docStep. destruct (feature d); [|now split].
  destruct (decide _); [now split|].
  split; [reflexivity|]. now repeat constructor.
Qed.

Lemma ruleStep_ok o fm :
  offset_ok fm ->
  offset_ok (ruleStep o fm).1 /\ Forall call_ok (ruleStep o fm).2.
Proof.
  intros H. unfold ruleStep. destruct o as [r|]; [|now split].
  destruct (decide _); [now split|].
  split; [reflexivity|]. now repeat constructor.
Qed.

Lemma caseStep_ok att fm :
  offset_ok fm ->
  offset_ok (caseStep att fm).1 /\ Forall call_ok (caseStep att fm).2.
Proof.
  intros H. unfold caseStep. cbv zeta.
  destruct (docStep_ok (gherkinDocument att) fm H) as [H1 J1].
  destruct (astNodeIds (pickle att)) as [ids|]; [|now split].
  match goal with |- context [ruleStep ?o ?f] =>
    destruct (ruleStep_ok o f H1) as [H2 J2]
  end.
  cbn [fst snd]. split; [exact H2|].
  rewrite !Forall_app. repeat split; try assumption.
  constructor; [|constructor].
  unfold call_ok. cbn. now apply offset_ok_cases.
Qed.

Lemma track_ok fm e :
  offset_ok fm -> offset_ok (track fm e).1 /\ Forall call_ok (track fm e).2.
Proof.
  intros H. unfold track.
  destruct (testCaseStarted e) as [tcs|]; [|now split].
  destruct (getTestCaseAttempt _) as [att|]; [|now split].
  now apply caseStep_ok.
Qed.

Lemma run_ok stream s :
  offset_ok (formatter s) -> Forall call_ok (calls s) ->
  offset_ok (formatter (run stream s)) /\ Forall call_ok (calls (run stream s)).
Proof.
  revert s. induction stream as [|e stream IH]; intros s H J; [now split|].
  cbn [run fold_left]. apply IH.
  - destruct (deliver_track s e) as [-> _]. now apply track_ok.
  - destruct (deliver_track s e) as [_ ->]. rewrite Forall_app.
    split; [exact J|]. now apply track_ok.
Qed.

End Tracking.

(** ** Counting the heads *)

Lemma countIf_app p j1 j2 :
  countIf p (j1 ++ j2) = (countIf p j1 + countIf p j2)%nat.
Proof. unfold countIf. now rewrite List.filter_app, length_app. Qed.

Lemma countIf_le p q j :
  (forall c, p c = true -> q c = true) -> (countIf p j <= countIf q j)%nat.
Proof.
  intros H. unfold countIf. induction j as [|c j IH]; simpl; [lia|].
  destruct (p c) eqn:Hp.
  - rewrite (H c Hp). simpl. lia.
  - destruct (q c); simpl; lia.
Qed.

Lemma heads_feature_le u j :
  (heads FeatureHead u j <= countIf isFeatureHead j)%nat.
Proof.
  apply countIf_le. intros c Hc. apply bool_decide_eq_true in Hc as [Hc _].
  unfold isFeatureHead. now rewrite Hc.
Qed.

Lemma heads_rule_le id u j :
  (heads (RuleHead id) u j <= countIf isRuleHead j)%nat.
Proof.
  apply countIf_le. intros c Hc. apply bool_decide_eq_true in Hc as [Hc _].
  unfold isRuleHead. now rewrite Hc.
Qed.

Section Stretches.

Context {host : Host}.

Ltac crunch :=
  repeat first
    [ progress cbn [fst snd uri lastRuleId countIf List.filter length app
                    isFeatureHead isRuleHead routine call_at Nat.add] in *
    | case_decide ];
  try lia; try congruence.

Lemma orElse_Some u : orElse (Some u) "" = u.
Proof. now destruct u. Qed.

Lemma track_featureDue d u fm e :
  doc_uri d = Some u -> inDocument d e ->
  (countIf isFeatureHead (track fm e).2 + featureDue u (track fm e).1
   <= featureDue u fm)%nat.
Proof.
  intros Hu Hd. unfold track.
  destruct (testCaseStarted e) as [tcs|] eqn:He; [|simpl; lia].
  destruct (getTestCaseAttempt _) as [att|] eqn:Hatt; [|simpl; lia].
  rewrite <- (Hd tcs att He Hatt) in Hu.
  unfold caseStep, docStep, ruleStep, featureDue, opened, nested. cbv zeta.
  rewrite Hu, orElse_Some.
  repeat first
    [ progress cbn [fst snd uri countIf List.filter isFeatureHead routine
                    call_at length app Nat.add]
    | match goal with
      | |- context [match ?x with _ => _ end] => destruct x
      end ];
    try lia; try congruence.
Qed.

Lemma track_ruleDue d u rid fm e :
  doc_uri d = Some u -> inDocument d e -> underRule d rid e ->
  (countIf isRuleHead (track fm e).2 + ruleDue d u rid (track fm e).1
   <= ruleDue d u rid fm)%nat.
Proof.
  intros Hu Hd Hr. unfold track.
  destruct (testCaseStarted e) as [tcs|] eqn:He; [|simpl; lia].
  destruct (getTestCaseAttempt _) as [att|] eqn:Hatt; [|simpl; lia].
  specialize (Hd tcs att He Hatt). specialize (Hr tcs att).
  unfold caseStep. cbv zeta. rewrite Hd.
  destruct (astNodeIds (pickle att)) as [ids|].
  2: { unfold docStep, ruleDue, opened. rewrite Hu, orElse_Some.
       destruct (feature d); crunch. }
  specialize (Hr ids).
  destruct (getGherkinExampleRuleMap d !! key0 ids) as [r|].
  2: { unfold docStep, ruleStep, ruleDue, opened.
       rewrite Hu, orElse_Some. destruct (feature d); crunch. }
  specialize (Hr r He Hatt eq_refl eq_refl).
  unfold docStep, ruleStep, ruleDue, opened, nested.
  rewrite Hu, orElse_Some, Hr. destruct (feature d); crunch.
Qed.

Lemma run_featureDue d u stream s :
  doc_uri d = Some u -> Forall (inDocument d) stream ->
  (countIf isFeatureHead (calls (run stream s))
   + featureDue u (formatter (run stream s))
   <= countIf isFeatureHead (calls s) + featureDue u (formatter s))%nat.
Proof.
  intros Hu Hd. revert s.
  induction Hd as [|e stream He _ IH]; intros s; [reflexivity|].
  cbn [run fold_left]. etransitivity; [apply IH|].
  destruct (deliver_track s e) as [-> ->]. rewrite countIf_app.
  pose proof (track_featureDue d u (formatter s) e Hu He). lia.
Qed.

Lemma run_ruleDue d u rid stream s :
  doc_uri d = Some u -> Forall (inDocument d) stream ->
  Forall (underRule d rid) stream ->
  (countIf isRuleHead (calls (run stream s))
   + ruleDue d u rid (formatter (run stream s))
   <= countIf isRuleHead (calls s) + ruleDue d u rid (formatter s))%nat.
Proof.
  intros Hu Hd. revert s.
  induction Hd as [|e stream He _ IH]; intros s Hr; [reflexivity|].
  apply Forall_cons in Hr as [Hr Hrs].
  cbn [run fold_left]. etransitivity; [apply IH, Hrs|].
  destruct (deliver_track s e) as [-> ->]. rewrite countIf_app.
  pose proof (track_ruleDue d u rid (formatter s) e Hu He Hr). lia.
Qed.

Lemma ruleDue_le d u rid fm : (ruleDue d u rid fm <= 1)%nat.
Proof.
  unfold ruleDue. destruct (feature d); repeat case_decide; lia.
Qed.

Lemma run_calls_app stream s :
  exists new, calls (run stream s) = calls s ++ new.
Proof.
  revert s. induction stream as [|e stream IH]; intros s.
  - exists []. now rewrite app_nil_r.
  - cbn [run fold_left]. destruct (IH (deliver s e)) as [new Hn].
    destruct (deliver_track s e) as [_ Hc]. rewrite Hc in Hn.
    eexists. fold (run stream (deliver s e)). rewrite Hn.
    now rewrite <- app_assoc.
Qed.

End Stretches.

(** ** Results and text of the handlers *)

Section Results.

Context {host : Host}.

#[local] Hint Resolve quiet_styleItem total_styleItem quiet_logItem
  total_logItem quiet_newline total_newline quiet_renderTags
  total_renderTags quiet_renderLocation total_renderLocation : footprint.

Lemma total_prop_Some {A B} (a : A) (f : A -> B) what :
  total (prop (Some a) f what).
Proof. apply total_ret. Qed.

(** With its identifiers at hand, the scenario head returns exactly when the
    first of them is known to the scenario map; otherwise reading the keyword
    of the missing scenario raises. *)
Lemma renderScenarioHead_result d p ids fm :
  astNodeIds p = Some ids ->
  result (renderScenarioHead d p fm) =
  match getGherkinScenarioMap d !! key0 ids with
  | Some _ => Returns tt
  | None => Throws (TypeError "scenario.keyword")
  end.
Proof.
  intros Hids. unfold renderScenarioHead. rewrite enter_bind.
  cbn [result]. rewrite Hids.
  rewrite (bind_returns (renderTags _ _) _ fm tt)
    by (apply returns_tt, total_renderTags).
  cbn [result].
  destruct (quiet_renderTags 2 (default [] (pickle_tags p)) fm) as [-> _].
  destruct (getGherkinScenarioMap d !! key0 ids) as [sc|].
  - apply returns_tt. pose proof (@total_prop_Some Scenario). footprint.
  - reflexivity.
Qed.

Lemma renderScenarioHead_missing d p fm :
  astNodeIds p = None ->
  result (renderScenarioHead d p fm) =
  Throws (Error "Pickle AST nodes missing").
Proof.
  intros Hids. unfold renderScenarioHead. rewrite enter_bind.
  cbn [result]. rewrite Hids.
  now rewrite (bind_returns (renderTags _ _) _ fm tt)
    by (apply returns_tt, total_renderTags).
Qed.

(** The error of the missing links is raised exactly when the field is
    absent. *)
Lemma missing_links_iff tcs att fm :
  getTestCaseAttempt (orElse (testCaseStarted_id tcs) "") = Some att ->
  result (onTestCaseStarted tcs fm) = Throws (Error "Pickle AST nodes missing")
  <-> astNodeIds (pickle att) = None.
Proof.
  intros Hatt. rewrite (onTestCaseStarted_unfold tcs att fm Hatt). cbv zeta.
  destruct (astNodeIds (pickle att)) as [ids|] eqn:Hids; cbn [result].
  - rewrite (renderScenarioHead_result _ _ ids) by exact Hids.
    destruct (_ !! _); split; discriminate.
  - split; reflexivity.
Qed.

Lemma caseStep_uri att fm :
  uri (caseStep att fm).1 = uri (docStep (gherkinDocument att) fm).1.
Proof.
  unfold caseStep. cbv zeta.
  destruct (astNodeIds (pickle att)); [|reflexivity].
  unfold ruleStep. destruct (_ !! _); [|reflexivity].
  now destruct (decide _).
Qed.

Lemma text_bind_l {A B} (m : M A) (k : A -> M B) fm :
  text (m fm) <> [] -> text ((m ≫= k) fm) <> [].
Proof.
  intros H. destruct (result (m fm)) as [a|e] eqn:E.
  - rewrite (bind_returns _ _ _ _ E). cbn [text].
    intros [? _]%app_eq_nil. contradiction.
  - now rewrite (bind_throws _ _ _ _ E).
Qed.

Lemma text_bind_r {A B} (m : M A) (k : A -> M B) fm :
  total m -> (forall a fm', text (k a fm') <> []) ->
  text ((m ≫= k) fm) <> [].
Proof.
  intros Hm Hk. destruct (Hm fm) as [a E].
  rewrite (bind_returns _ _ _ _ E). cbn [text].
  intros [_ ?]%app_eq_nil. now apply (Hk a (after (m fm))).
Qed.

Lemma text_logItem item txt fm : text (logItem item txt fm) <> [].
Proof. unfold logItem. now silent_step. Qed.

(** The feature head is never empty: it has at least its keyword. *)
Lemma renderFeatureHead_text f fm : text (renderFeatureHead f fm) <> [].
Proof.
  unfold renderFeatureHead.
  apply text_bind_r; [apply total_enter|]. intros _ fm1.
  apply text_bind_r; [apply total_renderTags|]. intros _ fm2.
  apply text_bind_l, text_logItem.
Qed.

End Results.

(** * The claims *)

Section Claims.

Context {host : Host}.


(** C2 (as amended).  Between any two envelopes of any stream the offset is
    exactly 0 when no rule is remembered in [lastRuleId] and exactly 2 when
    one is; every feature head and every rule head was entered at offset 0
    and every scenario head at offset 0 or 2.  From any such point, an
    attempt whose document has a feature and a URI other than the tracked
    one resets the fields (offset 0, no rule remembered) before the feature
    head, which is entered at offset 0, and ends at offset 0 when no rule is
    found for its scenario; and an attempt for whose scenario a rule is
    found that is not the remembered one has the rule head entered at offset
    0, the offset raised to 2 only afterwards: the scenario head is entered
    at offset 2 and the attempt ends at offset 2 with that rule
    remembered. *)
Theorem C2_offset_follows_last_rule stream :
  let fm := formatter (run stream start) in
  indentOffset fm = match lastRuleId fm with Some _ => 2 | None => 0 end /\
  Forall call_ok (calls (run stream start)) /\
  (forall tcs att,
     getTestCaseAttempt (orElse (testCaseStarted_id tcs) "") = Some att ->
     let d := gherkinDocument att in
     let fm1 := after (enterDocument d fm) in
     let e := onTestCaseStarted tcs fm in
     (forall f,
        feature d = Some f -> uri fm <> doc_uri d ->
        fm1 = {| uri := Some (orElse (doc_uri d) ""); lastRuleId := None;
                 indentOffset := 0 |} /\
        (exists rest,
           entered e =
           {| routine := FeatureHead; at_uri := uri fm1; at_offset := 0 |}
           :: rest) /\
        ((forall ids, astNodeIds (pickle att) = Some ids ->
                      getGherkinExampleRuleMap d !! key0 ids = None) ->
         indentOffset (after e) = 0 /\ lastRuleId (after e) = None)) /\
     (forall ids r,
        astNodeIds (pickle att) = Some ids ->
        getGherkinExampleRuleMap d !! key0 ids = Some r ->
        Some (rule_id r) <> lastRuleId fm1 ->
        In {| routine := RuleHead (rule_id r); at_uri := uri fm1;
              at_offset := 0 |} (entered e) /\
        last (entered e) =
          Some {| routine := ScenarioHead; at_uri := uri fm1;
                  at_offset := 2 |} /\
        indentOffset (after e) = 2 /\
        lastRuleId (after e) = Some (rule_id r))).
Proof.
  intros fm.
  destruct (run_ok stream start eq_refl (List.Forall_nil _)) as [Hok Hcalls].
  split; [exact Hok|]. split; [exact Hcalls|].
  intros tcs att Hatt d fm1 e.
  assert (Hcase : (after e, entered e) = caseStep att fm)
    by apply (onTestCaseStarted_fields tcs att fm Hatt).
  set (j1 := entered (enterDocument d fm)).
  assert (Hdoc : (fm1, j1) = docStep d fm)
    by apply enterDocument_fields.
  unfold caseStep in Hcase. cbv zeta in Hcase. fold d in Hcase.
  rewrite <- Hdoc in Hcase. cbn [fst snd] in Hcase.
  clearbody e fm1 j1.
  split.
  - intros f Hfe Hu. unfold docStep in Hdoc.
    rewrite Hfe, decide_False in Hdoc by exact Hu.
    injection Hdoc as H1 H2. rewrite H2 in Hcase.
    split; [exact H1|]. split.
    + destruct (astNodeIds (pickle att)); injection Hcase as _ He;
        rewrite He, H1; eexists; reflexivity.
    + intros Hnone.
      destruct (astNodeIds (pickle att)) as [ids|].
      * rewrite (Hnone ids eq_refl) in Hcase. cbn [ruleStep fst] in Hcase.
        injection Hcase as Ha _. now rewrite Ha, H1.
      * injection Hcase as Ha _. now rewrite Ha, H1.
  - intros ids r Hids Hr Hn. rewrite Hids, Hr in Hcase.
    unfold ruleStep in Hcase.
    rewrite decide_False in Hcase by exact Hn. cbn [fst snd] in Hcase.
    injection Hcase as Ha He. rewrite Ha, He.
    split; [|split; [|split; reflexivity]].
    + apply in_or_app. right. now left.
    + now rewrite last_app_cons.
Qed.


(** C5.  A step that finished with the status passed, or with none, writes
    nothing; with any other status exactly one status line is written,
    followed by exactly one message line if and only if a message is attached
    (a message that is present and not the empty string, which is what the
    source tests).  The handler never raises and leaves the fields alone. *)
Theorem C5_step_finished e fm :
  let r := testStepResult e in
  onTestStepFinished e fm =
  {| result := Returns tt; after := fm;
     text :=
       match r ≫= status with
       | None | Some PASSED => []
       | Some s =>
           statusLine fm s ++
           (if truthy (r ≫= message)
            then messageLine fm (orElse (r ≫= message) "") else [])
       end;
     entered := [] |}.
Proof.
  destruct e as [[[m st]|]]; [|reflexivity].
  destruct st as [[]|]; try reflexivity;
    destruct m as [[|c m]|]; reflexivity.
Qed.

(** C6 (as amended).  On a document with a feature, a step-started envelope
    whose test step is not among the steps of the attempt's test case, or
    carries no pickle step identifier (a hook), is skipped in silence:
    nothing is written, nothing is raised, and the fields stay.  (On a
    document without a feature the helper called at line 186 raises before
    the test step is looked for.) *)
Theorem C6_hook_or_unknown_step_skipped e att fm :
  getTestCaseAttempt (orElse (testCaseStartedId e) "") = Some att ->
  is_Some (feature (gherkinDocument att)) ->
  (forall ts,
     find (fun item => String.eqb (testStep_id item) (testStepId e))
          (default [] (testSteps (testCase att))) = Some ts ->
     truthy (pickleStepId ts) = false) ->
  onTestStepStarted e fm = nothing fm.
Proof.
  intros Hatt _ Hts. unfold onTestStepStarted,
    eventDataCollector_getTestCaseAttempt.
  rewrite Hatt. silent_step.
  destruct (find _ _) as [ts|]; [|reflexivity].
  now rewrite (Hts ts eq_refl).
Qed.


End Claims.

(** ** One scenario from start to finish *)

Section OneScenario.

Context {host : Host}.

Lemma bind_skip_r (m : M unit) (k : unit -> M unit) fm :
  (forall a fm', k a fm' = nothing fm') -> (m ≫= k) fm = m fm.
Proof.
  intros Hk. unfold mbind, M_bind.
  destruct (m fm) as [[[]|e] a t j]; cbn [result after text entered];
    [|reflexivity].
  rewrite Hk. cbn [nothing result after text entered].
  now rewrite !app_nil_r.
Qed.

Lemma parseEnvelope_caseStarted id fm :
  parseEnvelope (caseStarted id) fm =
  onTestCaseStarted {| testCaseStarted_id := Some id |} fm.
Proof. unfold parseEnvelope. now apply bind_skip_r. Qed.

Lemma parseEnvelope_stepStarted id step fm :
  parseEnvelope (stepStarted id step) fm =
  onTestStepStarted {| testCaseStartedId := Some id; testStepId := step |} fm.
Proof. unfold parseEnvelope. silent_step. now apply bind_skip_r. Qed.

Lemma parseEnvelope_passed fm :
  parseEnvelope (stepFinished PASSED None) fm = nothing fm.
Proof. reflexivity. Qed.

Lemma deliver_eq s e r fm' t j :
  parseEnvelope e (formatter s) =
    {| result := r; after := fm'; text := t; entered := j |} ->
  deliver s e =
    {| formatter := fm'; out := out s ++ t; calls := calls s ++ j |}.
Proof. intros H. unfold deliver. now rewrite H. Qed.

Lemma parseEnvelope_caseFinished id fm :
  parseEnvelope (caseFinished id) fm =
  {| result := Returns tt; after := fm; text := [EOL]; entered := [] |}.
Proof. reflexivity. Qed.

End OneScenario.

(** * The claims on the host [Demo.demo] *)

Section Runs.

Import Demo.

#[local] Existing Instance demo.

(** Settles, on the demo host, what an envelope starts and what the maps
    hold: a lookup that is assumed to succeed is evaluated and read. *)
Ltac look_up :=
  repeat match goal with
  | H : _ = Some _ |- _ => vm_compute in H; injection H as <-
  | H : _ = Some _ |- _ => discriminate H
  end.



(** C2, counterexample.  In "x.feature" an example row under the rule r1 is
    followed by the scenario S1, which is under no rule: the scenario head
    of S1 is entered at offset 2 and the offset is still 2 afterwards. *)
Lemma C2_counterexample :
  let s := run [caseStarted "B"; caseStarted "A"] start in
  gherkinDocument <$> getTestCaseAttempt "A" = Some docX /\
  gherkinDocument <$> getTestCaseAttempt "B" = Some docX /\
  getGherkinExampleRuleMap docX !! "s1" = None /\
  last (calls s) =
    Some {| routine := ScenarioHead; at_uri := Some "x.feature";
            at_offset := 2 |} /\
  indentOffset (formatter s) = 2.
Proof. repeat split; vm_compute; reflexivity. Qed.



(** C4, the code at the failing input.  The pickle of the attempt "G" has a
    linked identifier, which no scenario of the document bears; the handler
    raises all the same: a [TypeError], from reading the keyword of the
    scenario that was not found. *)
Lemma C4_raises_with_linked_ids :
  astNodeIds <$> (pickle <$> getTestCaseAttempt "G") = Some (Some ["nowhere"])
  /\ result (parseEnvelope (caseStarted "G") fresh)
     = Throws (TypeError "scenario.keyword").
Proof. split; vm_compute; reflexivity. Qed.

(** C6, counterexample.  The test step "step9" of the attempt "A" names the
    pickle step "ps9", which the pickle does not have: it cannot be resolved
    to a source step, and the handler raises instead of skipping it. *)
Lemma C6_counterexample :
  getPickleStepMap pickleS1 !! "ps9" = None /\
  result (parseEnvelope (stepStarted "A" "step9") fresh)
  = Throws (TypeError "pickleStep.astNodeIds").
Proof. split; vm_compute; reflexivity. Qed.

(** C6, witness: the hook of the attempt "A". *)
Lemma C6_witness :
  onTestStepStarted
    {| testCaseStartedId := Some "A"; testStepId := "hook1" |} fresh
  = nothing fresh.
Proof.
  eapply C6_hook_or_unknown_step_skipped.
  - vm_compute. reflexivity.
  - now exists F.
  - intros ts Hts. look_up. reflexivity.
Defined.

(** C7, the code at the failing input.  The first identifier of the pickle
    does not resolve in the scenario map of "x.feature"; the scenario head
    raises before it has written anything: no head without a location is
    rendered. *)
Lemma C7_unresolved_scenario_raises :
  let e := renderScenarioHead docX (pickleOf "dangling" (Some ["nowhere"]))
             (opened docX) in
  getGherkinScenarioMap docX !! "nowhere" = None /\
  result e = Throws (TypeError "scenario.keyword") /\
  text e = [].
Proof. repeat split; vm_compute; reflexivity. Qed.

(** The same stream, string by string, under the plain theme. *)
Example one_scenario_output :
  out (run [caseStarted "A"; stepStarted "A" "step1";
            stepFinished PASSED None; caseFinished "A"] start)
  = ["@smoke"; EOL;
     "Feature:"; " "; "F"; " "; "# x.feature:1"; EOL; EOL;
     "  Scenario:"; " "; "S1"; " "; "# x.feature:3"; EOL;
     "    Given"; " "; "a"; EOL;
     EOL].
Proof. vm_compute. reflexivity. Qed.

(** Two example rows under the rule r1: one rule head, and both scenario
    heads two columns further in than without a rule. *)
Example rule_reuse_output :
  out (run [caseStarted "B"; caseStarted "B2"] start)
  = ["@smoke"; EOL;
     "Feature:"; " "; "F"; " "; "# x.feature:1"; EOL; EOL;
     "  Rule:"; " "; "first"; EOL; EOL;
     "    Scenario Outline:"; " "; "S2"; " "; "# x.feature:8"; EOL;
     "    Scenario Outline:"; " "; "S2"; " "; "# x.feature:8"; EOL].
Proof. vm_compute. reflexivity. Qed.

End Runs.

(** * Further properties of the render routines and of the handlers *)

Section Texts.

Context {host : Host}.

(** Sequencing after a statement whose whole effect is known. *)
Lemma bind_effect {A B} (m : M A) (k : A -> M B) fm a fm' t j :
  m fm = {| result := Returns a; after := fm'; text := t; entered := j |} ->
  (m ≫= k) fm =
  {| result := result (k a fm'); after := after (k a fm');
     text := t ++ text (k a fm'); entered := j ++ entered (k a fm') |}.
Proof. intros E. unfold mbind, M_bind. now rewrite E. Qed.

Lemma logItem_effect item txt fm :
  logItem item txt fm =
  {| result := Returns tt; after := fm;
     text := [indentStyleText (indented (themeItemIndentations item) fm)
                item txt];
     entered := [] |}.
Proof. reflexivity. Qed.

Lemma tagStrings_from acc tags :
  fold_left
    (fun (acc : list string) tag =>
       if truthy (Some (tag_name tag)) then acc ++ [tag_name tag] else acc)
    tags acc
  = acc ++ namedTags tags.
Proof.
  revert acc. induction tags as [|t tags IH]; intros acc.
  - now rewrite app_nil_r.
  - cbn [fold_left]. rewrite IH. unfold namedTags. cbn [List.filter].
    destruct (truthy (Some (tag_name t))); [|reflexivity].
    cbn [map]. now rewrite <- app_assoc.
Qed.

(** X1.  The reduction that collects the tag names keeps exactly the names
    that are not empty, in the order of the tags. *)
Theorem X1_tagStrings_keeps_named tags :
  tagStrings tags = map tag_name
                      (List.filter (fun t => negb (String.eqb (tag_name t) ""))
                         tags).
Proof.
  unfold tagStrings. rewrite (tagStrings_from [] tags). cbn [app].
  unfold namedTags. f_equal. apply List.filter_ext. intros t.
  now destruct (tag_name t).
Qed.

Lemma forEach_tags r fm :
  forEach (fun tag => log " ";; logItem Tag [tag]) r fm =
  {| result := Returns tt; after := fm;
     text := flat_map (fun tag => [" "; indentStyleText 0 Tag [tag]]) r;
     entered := [] |}.
Proof.
  revert fm. induction r as [|t r IH]; intros fm; [reflexivity|].
  cbn [forEach flat_map].
  erewrite bind_effect by reflexivity. cbv beta. now rewrite IH.
Qed.

Lemma renderTags_effect indent tags fm :
  renderTags indent tags fm =
  {| result := Returns tt; after := fm; text := tagLine indent tags fm;
     entered := [] |}.
Proof.
  unfold renderTags, tagLine, tagStrings.
  rewrite (tagStrings_from [] tags). cbn [app].
  destruct (namedTags tags) as [|t r]; [reflexivity|].
  erewrite bind_effect by reflexivity. cbv beta.
  erewrite bind_effect by reflexivity. cbv beta.
  erewrite bind_effect by apply forEach_tags. reflexivity.
Qed.

(** X2.  [renderTags] never raises and leaves the fields alone.  Without a
    named tag it writes nothing, not even an end of line; with [k] named
    tags it writes the first at the indentation asked for (shifted by the
    offset when both are positive), each of the others after a space and
    never indented, and one end of line: [2 * k] strings in all. *)
Theorem X2_renderTags indent tags fm :
  renderTags indent tags fm =
    {| result := Returns tt; after := fm; text := tagLine indent tags fm;
       entered := [] |} /\
  (namedTags tags = [] -> tagLine indent tags fm = []) /\
  (namedTags tags <> [] ->
   length (tagLine indent tags fm) = (2 * length (namedTags tags))%nat /\
   last (tagLine indent tags fm) = Some EOL).
Proof.
  split; [apply renderTags_effect|]. unfold tagLine.
  destruct (namedTags tags) as [|t r]; split; try congruence; intros _.
  split.
  - cbn [length]. rewrite length_app.
    assert (H : forall l : list string,
              length (flat_map (fun tag => [" "; indentStyleText 0 Tag [tag]])
                        l) = (2 * length l)%nat).
    { induction l as [|x l IH]; [reflexivity|].
      cbn [flat_map length app]. rewrite IH. lia. }
    rewrite H. cbn [length]. lia.
  - now rewrite app_comm_cons, last_snoc.
Qed.

Lemma renderFeatureHead_effect f fm :
  renderFeatureHead f fm =
  {| result := Returns tt; after := fm; text := featureHeadText f fm;
     entered := [call_at FeatureHead fm] |}.
Proof.
  unfold renderFeatureHead, featureHeadText. rewrite enter_bind.
  erewrite bind_effect by apply renderTags_effect.
  cbn [result after text entered].
  destruct (feature_location f) as [l|];
    destruct (feature_description f) as [[|c desc]|]; reflexivity.
Qed.

(** X3.  The feature head, string by string: the tag line if a tag is named;
    keyword and colon, a space, the name; a space and the reference to the
    line only when the feature has a location, the reference naming the
    tracked URI and line -1 for a line 0; an end of line; the description
    between two ends of line only when it is not empty; and a last end of
    line.  Rendered on a change of document, the reference names the URI of
    the new document: the fields are assigned first. *)
Theorem X3_feature_head d f fm :
  feature d = Some f -> uri fm <> doc_uri d ->
  text (enterDocument d fm) = featureHeadText f (opened d) /\
  (forall l, feature_location f = Some l ->
     In (indentStyleText 0 Location
           ["# "; formatLocation (orElse (doc_uri d) "") (lineOr (Some l))])
        (text (enterDocument d fm))) /\
  last (text (enterDocument d fm)) = Some EOL.
Proof.
  intros Hf Hu. rewrite (enterDocument_changes d f fm Hf Hu).
  rewrite renderFeatureHead_effect. cbn [text]. split; [reflexivity|].
  split.
  - intros l Hl. unfold featureHeadText. rewrite Hl.
    rewrite !in_app_iff. right. right. left. right. left.
    unfold locationRef, opened. cbn [uri].
    now rewrite orElse_Some.
  - unfold featureHeadText. now rewrite !app_assoc, last_snoc.
Qed.

(** X4.  The head of a new rule does not depend on the state it is met in:
    the keyword is always at indentation 2 and the name at 0, whatever the
    offset was, followed by two ends of line; afterwards the rule is
    remembered and the offset is 2. *)
Theorem X4_rule_head r fm :
  Some (rule_id r) <> lastRuleId fm ->
  enterRule (Some r) fm =
  {| result := Returns tt;
     after := {| uri := uri fm; lastRuleId := Some (rule_id r);
                 indentOffset := 2 |};
     text := [indentStyleText 2 RuleKeyword [rule_keyword r; ":"]; " ";
              indentStyleText 0 RuleName [orElse (rule_name r) ""];
              EOL; EOL];
     entered := [call_at (RuleHead (rule_id r)) (flush fm)] |}.
Proof. intros Hn. now rewrite enterRule_changes. Qed.

Lemma renderScenarioHead_found d p ids sc fm :
  astNodeIds p = Some ids ->
  getGherkinScenarioMap d !! key0 ids = Some sc ->
  renderScenarioHead d p fm =
  {| result := Returns tt; after := fm; text := scenarioHeadText p sc fm;
     entered := [call_at ScenarioHead fm] |}.
Proof.
  intros Hids Hsc. unfold renderScenarioHead, scenarioHeadText.
  rewrite enter_bind. erewrite bind_effect by apply renderTags_effect.
  rewrite Hids, Hsc. reflexivity.
Qed.

(** X5.  When the first identifier of the pickle is known to the scenario
    map, the scenario head returns, leaves the fields alone and writes: the
    tag line at indentation 2 (4 under a rule); keyword and colon at the same
    indentation, a space, the name of the pickle; and always a space and a
    reference, to line -1 when the scenario has no location; then one end of
    line.  The reference names the tracked URI. *)
Theorem X5_scenario_head_found d p ids sc fm :
  astNodeIds p = Some ids ->
  getGherkinScenarioMap d !! key0 ids = Some sc ->
  renderScenarioHead d p fm =
  {| result := Returns tt; after := fm;
     text :=
       tagLine 2 (default [] (pickle_tags p)) fm ++
       [indentStyleText (indented 2 fm) ScenarioKeyword
          [orElse (scenario_keyword sc) "???"; ":"];
        " ";
        indentStyleText 0 ScenarioName [orElse (pickle_name p) ""];
        " ";
        indentStyleText 0 Location
          ["# "; formatLocation (orElse (uri fm) "")
                   (lineOr (scenario_location sc))];
        EOL];
     entered := [call_at ScenarioHead fm] |}.
Proof. apply renderScenarioHead_found. Qed.


End Texts.

Section Steps.

Context {host : Host}.

Lemma mapM_pure {A B} (f : A -> M B) (g : A -> B) l fm :
  (forall x fm', f x fm' =
     {| result := Returns (g x); after := fm'; text := []; entered := [] |}) ->
  mapM f l fm =
  {| result := Returns (map g l); after := fm; text := []; entered := [] |}.
Proof.
  intros Hf. induction l as [|x l IH]; [reflexivity|].
  cbn [mapM map]. erewrite bind_effect by apply Hf. cbv beta.
  erewrite bind_effect by apply IH. reflexivity.
Qed.

Lemma renderDataTable_effect t fm :
  renderDataTable t fm =
  {| result := Returns tt; after := fm; text := dataTableText t fm;
     entered := [] |}.
Proof.
  unfold renderDataTable.
  erewrite bind_effect.
  2: { apply (mapM_pure _
         (fun row =>
            map (fun cell =>
                   indentStyleText 0 DataTableContent
                     [orElse (value cell) ""])
                (default [] (cells row)))).
       intros row fm'. apply mapM_pure. reflexivity. }
  reflexivity.
Qed.

Lemma log_effect s fm :
  log s fm =
  {| result := Returns tt; after := fm; text := [s]; entered := [] |}.
Proof. reflexivity. Qed.

Lemma renderDocString_effect d fm :
  renderDocString d fm =
  {| result := Returns tt; after := fm; text := docStringText d fm;
     entered := [] |}.
Proof. reflexivity. Qed.

(** X7.  A step that resolves, through its pickle step, to a step of the
    document is written as: the keyword at indentation 4 (6 under a rule), a
    space, the text of the pickle step, an end of line; then, when the step
    has a doc string, its delimiter, content and delimiter again, each on a
    line at indentation 6 (8 under a rule); then, when it has a data table,
    the laid out table as one item at the same indentation and an end of
    line.  The cells are styled at indentation 0, a row without cells is an
    empty row and a cell without value an empty cell.  The handler returns
    and leaves the fields alone. *)
Theorem X7_step_started e att ts ps gs fm :
  getTestCaseAttempt (orElse (testCaseStartedId e) "") = Some att ->
  find (fun item => String.eqb (testStep_id item) (testStepId e))
       (default [] (testSteps (testCase att))) = Some ts ->
  truthy (pickleStepId ts) = true ->
  getPickleStepMap (pickle att) !! orElse (pickleStepId ts) "" = Some ps ->
  getGherkinStepMap (gherkinDocument att) !! key0 (pickleStep_astNodeIds ps)
    = Some gs ->
  onTestStepStarted e fm =
  {| result := Returns tt; after := fm;
     text :=
       [indentStyleText (indented 4 fm) StepKeyword [step_keyword gs]; " ";
        indentStyleText 0 StepText [pickleStep_text ps]; EOL] ++
       from_option
         (fun d =>
            [indentStyleText (indented 6 fm) DocStringDelimiter [delimiter d];
             EOL;
             indentStyleText (indented 6 fm) DocStringContent [content d];
             EOL;
             indentStyleText (indented 6 fm) DocStringDelimiter [delimiter d];
             EOL])
         [] (docString gs) ++
       from_option
         (fun t =>
            [indentStyleText (indented 6 fm) DataTable
               [cliTable tableFrameChar
                  (map (fun row =>
                          map (fun cell =>
                                 indentStyleText 0 DataTableContent
                                   [orElse (value cell) ""])
                              (default [] (cells row)))
                       (rows t))];
             EOL])
         [] (dataTable gs);
     entered := [] |}.
Proof.
  intros Hatt Hfind Hid Hps Hgs.
  unfold onTestStepStarted, eventDataCollector_getTestCaseAttempt.
  rewrite Hatt. silent_step. rewrite Hfind, Hid. cbn [when].
  rewrite Hps. cbn [prop]. silent_step. rewrite Hgs. cbn [prop].
  silent_step.
  erewrite bind_effect by apply logItem_effect. cbv beta.
  erewrite bind_effect by apply log_effect. cbv beta.
  silent_step.
  erewrite bind_effect by apply logItem_effect. cbv beta.
  erewrite bind_effect by apply log_effect. cbv beta.
  silent_step.
  destruct (docString gs) as [d|]; cbn [from_option].
  - erewrite bind_effect by apply renderDocString_effect. cbv beta.
    silent_step.
    destruct (dataTable gs) as [t|]; cbn [from_option].
    + now rewrite renderDataTable_effect.
    + reflexivity.
  - do 2 silent_step.
    destruct (dataTable gs) as [t|]; cbn [from_option].
    + now rewrite renderDataTable_effect.
    + reflexivity.
Qed.

(** X8.  A test step that names a pickle step which the pickle does not
    have, or whose pickle step points to no step of the document, makes the
    handler raise a [TypeError] before anything is written: no part of the
    step line appears, and the fields stay. *)
Theorem X8_dangling_step_raises e att ts fm :
  getTestCaseAttempt (orElse (testCaseStartedId e) "") = Some att ->
  find (fun item => String.eqb (testStep_id item) (testStepId e))
       (default [] (testSteps (testCase att))) = Some ts ->
  truthy (pickleStepId ts) = true ->
  let pickleStep :=
    getPickleStepMap (pickle att) !! orElse (pickleStepId ts) "" in
  (pickleStep = None ->
   onTestStepStarted e fm =
   {| result := Throws (TypeError "pickleStep.astNodeIds"); after := fm;
      text := []; entered := [] |}) /\
  (forall ps,
     pickleStep = Some ps ->
     getGherkinStepMap (gherkinDocument att)
       !! key0 (pickleStep_astNodeIds ps) = None ->
     onTestStepStarted e fm =
     {| result := Throws (TypeError "gherkinStep.keyword"); after := fm;
        text := []; entered := [] |}).
Proof.
  intros Hatt Hfind Hid pickleStep. subst pickleStep.
  split; [intros Hps | intros ps Hps Hgs];
    unfold onTestStepStarted, eventDataCollector_getTestCaseAttempt;
    rewrite Hatt; silent_step; rewrite Hfind, Hid; cbn [when];
    rewrite Hps; cbn [prop].
  - reflexivity.
  - silent_step. now rewrite Hgs.
Qed.

(** X9.  Only an envelope that starts a test case can change the fields or
    render a head: on any other envelope the three fields stay as they were
    and no head routine is entered, also when the handler of a step raises;
    and an envelope that starts neither a test case nor a test step never
    raises. *)
Theorem X9_other_envelopes_keep_the_fields e fm :
  testCaseStarted e = None ->
  after (parseEnvelope e fm) = fm /\
  entered (parseEnvelope e fm) = [] /\
  (testStepStarted e = None -> result (parseEnvelope e fm) = Returns tt).
Proof.
  intros He. pose proof (parseEnvelope_fields e fm) as H.
  unfold track in H. rewrite He in H. injection H as Ha Hj.
  split; [exact Ha|]. split; [exact Hj|]. intros Hs.
  unfold parseEnvelope. rewrite He, Hs. cbn [from_option].
  do 2 silent_step. apply returns_tt.
  apply total_bind; [apply total_from_option, total_onTestStepFinished|].
  intros _. apply total_from_option. intros f. apply total_newline.
Qed.

(** X10.  The handlers of one envelope run in the order of the four tests,
    and a raise ends the envelope: when the handler of the started test case
    raises, nothing more is written for that envelope, whatever else it
    carries. *)
Theorem X10_raise_ends_the_envelope e tcs err fm :
  testCaseStarted e = Some tcs ->
  result (onTestCaseStarted tcs fm) = Throws err ->
  parseEnvelope e fm = onTestCaseStarted tcs fm.
Proof.
  intros He Hr. unfold parseEnvelope. rewrite He. cbn [from_option].
  rewrite (bind_throws _ _ _ _ Hr).
  destruct (onTestCaseStarted tcs fm) as [r a t j]. cbn in *. now subst.
Qed.

End Steps.

Section Repeats.

Context {host : Host}.

Lemma onTestCaseStarted_same_place tcs att ids fm :
  getTestCaseAttempt (orElse (testCaseStarted_id tcs) "") = Some att ->
  astNodeIds (pickle att) = Some ids ->
  let d := gherkinDocument att in
  (feature d = None \/ uri fm = doc_uri d) ->
  (forall r, getGherkinExampleRuleMap d !! key0 ids = Some r ->
             Some (rule_id r) = lastRuleId fm) ->
  onTestCaseStarted tcs fm = renderScenarioHead d (pickle att) fm.
Proof.
  intros Hatt Hids d Hdoc Hrule.
  rewrite (onTestCaseStarted_unfold tcs att fm Hatt). cbv zeta. fold d.
  rewrite Hids, (enterDocument_stays d fm Hdoc).
  cbn [nothing after text entered].
  rewrite (enterRule_stays _ fm Hrule). cbn [nothing after text entered app].
  now destruct (renderScenarioHead d (pickle att) fm).
Qed.

(** X11.  When the document of the attempt has a feature and is the tracked
    one, and the rule of the scenario, if it has one, is the remembered one,
    starting the attempt does exactly what rendering the scenario head does:
    neither the feature head nor the rule head is written again, and the
    fields stay. *)
Theorem X11_same_place_renders_scenario_head_only tcs att ids fm :
  getTestCaseAttempt (orElse (testCaseStarted_id tcs) "") = Some att ->
  astNodeIds (pickle att) = Some ids ->
  let d := gherkinDocument att in
  is_Some (feature d) ->
  uri fm = doc_uri d ->
  (forall r, getGherkinExampleRuleMap d !! key0 ids = Some r ->
             Some (rule_id r) = lastRuleId fm) ->
  onTestCaseStarted tcs fm = renderScenarioHead d (pickle att) fm.
Proof.
  intros Hatt Hids d _ Hu Hr.
  apply (onTestCaseStarted_same_place tcs att ids fm Hatt Hids).
  - now right.
  - exact Hr.
Qed.

(** X12.  Starting the same attempt a second time, as for a retry, right
    after the first, writes the scenario head again and nothing else, and
    leaves the fields as the first start left them, provided the document
    has a feature and a URI. *)
Theorem X12_retry_renders_scenario_head_only tcs att ids u fm :
  getTestCaseAttempt (orElse (testCaseStarted_id tcs) "") = Some att ->
  astNodeIds (pickle att) = Some ids ->
  is_Some (feature (gherkinDocument att)) ->
  doc_uri (gherkinDocument att) = Some u ->
  let fm1 := after (onTestCaseStarted tcs fm) in
  onTestCaseStarted tcs fm1 =
  renderScenarioHead (gherkinDocument att) (pickle att) fm1.
Proof.
  intros Hatt Hids _ Hu fm1.
  pose proof (onTestCaseStarted_fields tcs att fm Hatt) as Hf.
  apply (f_equal fst) in Hf. cbn [fst] in Hf. fold fm1 in Hf.
  apply (onTestCaseStarted_same_place tcs att ids fm1 Hatt Hids).
  - rewrite Hf, caseStep_uri. unfold docStep.
    destruct (feature (gherkinDocument att)); [|now left]. right.
    destruct (decide _) as [E|_]; [exact E|].
    cbn [fst opened uri]. now rewrite Hu, orElse_Some.
  - intros r Hr. rewrite Hf. unfold caseStep. cbv zeta.
    rewrite Hids, Hr. unfold ruleStep.
    now destruct (decide _) as [E|_].
Qed.

Lemma track_nameless fm e :
  startsNameless e ->
  (uri fm = None ->
   uri (track fm e).1 = None /\
   countIf isFeatureHead (track fm e).2 = 0%nat) /\
  (uri fm <> None ->
   uri (track fm e).1 <> None /\
   countIf isFeatureHead (track fm e).2 = 1%nat).
Proof.
  intros (tcs & att & He & Hatt & Hu & [f Hf]). unfold track.
  rewrite He, Hatt. rewrite caseStep_uri.
  assert (Hcount : countIf isFeatureHead (caseStep att fm).2 =
                   countIf isFeatureHead (docStep (gherkinDocument att) fm).2).
  { unfold caseStep. cbv zeta.
    destruct (astNodeIds (pickle att)); [|reflexivity].
    cbn [snd]. rewrite !countIf_app. unfold ruleStep.
    destruct (_ !! _); [destruct (decide _)|]; cbn; lia. }
  rewrite Hcount. unfold docStep. rewrite Hf, Hu.
  split; intros H; destruct (decide (uri fm = None)); try contradiction;
    now split.
Qed.

(** X13.  A document without a URI never becomes the tracked one: the field
    is set to the empty string, which is not [undefined].  So, attempt after
    attempt of such documents (each with a feature), a formatter that tracks
    some URI renders the feature head at every attempt, and a formatter that
    tracks none, as a fresh one, renders no feature head at all. *)
Theorem X13_document_without_uri stream s :
  Forall startsNameless stream ->
  (uri (formatter s) = None ->
   countIf isFeatureHead (calls (run stream s)) =
   countIf isFeatureHead (calls s)) /\
  (uri (formatter s) <> None ->
   countIf isFeatureHead (calls (run stream s)) =
   (countIf isFeatureHead (calls s) + length stream)%nat).
Proof.
  intros Hs. revert s.
  induction Hs as [|e stream He _ IH]; intros s.
  - cbn [run fold_left length]. split; intros _; lia.
  - cbn [run fold_left length]. fold (run stream (deliver s e)).
    destruct (IH (deliver s e)) as [IH0 IH1].
    destruct (deliver_track s e) as [Hfm Hc].
    destruct (track_nameless (formatter s) e He) as [T0 T1].
    rewrite Hfm in IH0, IH1. rewrite Hc in IH0, IH1.
    rewrite countIf_app in IH0, IH1.
    split; intros H.
    + destruct (T0 H) as [Hu Hn]. rewrite (IH0 Hu), Hn. lia.
    + destruct (T1 H) as [Hu Hn]. rewrite (IH1 Hu), Hn. lia.
Qed.

(** X14.  Two attempts in a row of one document, both under the rule [r]: a
    fresh formatter writes the feature head, the head of [r] once, and the
    two scenario heads, both with the keyword at indentation 4, two columns
    further in than the rule keyword; the rule stays remembered. *)
Theorem X14_rule_reuse A B attA attB u f r r' idsA idsB scA scB :
  getTestCaseAttempt (orElse (Some A) "") = Some attA ->
  getTestCaseAttempt (orElse (Some B) "") = Some attB ->
  let d := gherkinDocument attA in
  gherkinDocument attB = d ->
  doc_uri d = Some u -> feature d = Some f ->
  astNodeIds (pickle attA) = Some idsA ->
  astNodeIds (pickle attB) = Some idsB ->
  getGherkinExampleRuleMap d !! key0 idsA = Some r ->
  getGherkinExampleRuleMap d !! key0 idsB = Some r' ->
  rule_id r' = rule_id r ->
  getGherkinScenarioMap d !! key0 idsA = Some scA ->
  getGherkinScenarioMap d !! key0 idsB = Some scB ->
  let s := run [caseStarted A; caseStarted B] start in
  let fm := {| uri := Some u; lastRuleId := Some (rule_id r);
               indentOffset := 2 |} in
  formatter s = fm /\
  out s =
    featureHeadText f (opened d) ++ ruleHeadText r ++
    scenarioHeadText (pickle attA) scA fm ++
    scenarioHeadText (pickle attB) scB fm /\
  map routine (calls s) =
    [FeatureHead; RuleHead (rule_id r); ScenarioHead; ScenarioHead] /\
  indented 2 fm = 4.
Proof.
  intros HA HB d HdB Hu Hf HidsA HidsB HrA HrB Hid HsA HsB s fm.
  assert (Hopen : nested r (opened d) = fm).
  { unfold nested, opened, fm. cbn [uri]. now rewrite Hu, orElse_Some. }
  assert (H1 : parseEnvelope (caseStarted A) fresh =
    {| result := Returns tt; after := fm;
       text := featureHeadText f (opened d) ++ ruleHeadText r ++
               scenarioHeadText (pickle attA) scA fm;
       entered := [call_at FeatureHead (opened d);
                   call_at (RuleHead (rule_id r)) (flush (opened d));
                   call_at ScenarioHead fm] |}).
  { rewrite parseEnvelope_caseStarted.
    rewrite (onTestCaseStarted_unfold
               {| testCaseStarted_id := Some A |} attA fresh HA).
    cbv zeta. fold d. rewrite HidsA, HrA.
    rewrite (enterDocument_changes d f fresh Hf) by (rewrite Hu; discriminate).
    rewrite renderFeatureHead_effect. cbn [after text entered].
    rewrite enterRule_changes by discriminate. cbn [after text entered].
    rewrite Hopen.
    rewrite (renderScenarioHead_found d _ idsA scA fm HidsA HsA).
    reflexivity. }
  assert (H2 : parseEnvelope (caseStarted B) fm =
    {| result := Returns tt; after := fm;
       text := scenarioHeadText (pickle attB) scB fm;
       entered := [call_at ScenarioHead fm] |}).
  { rewrite parseEnvelope_caseStarted.
    rewrite (onTestCaseStarted_same_place
               {| testCaseStarted_id := Some B |} attB idsB fm HB HidsB).
    - rewrite HdB.
      apply (renderScenarioHead_found d _ idsB scB fm HidsB HsB).
    - right. rewrite HdB. now rewrite Hu.
    - rewrite HdB. intros r0 Hr0. rewrite HrB in Hr0.
      injection Hr0 as <-. now rewrite Hid. }
  subst s. unfold run. cbn [fold_left].
  rewrite (deliver_eq start _ _ _ _ _ H1). cbn [start out calls].
  erewrite (deliver_eq _ (caseStarted B)) by exact H2.
  cbn [formatter out calls]. repeat split.
  now rewrite <- !app_assoc.
Qed.

End Repeats.

Section Kinds.

Context {host : Host}.

(** X15.  An envelope may carry several kinds, and each is handled, in the
    order of the tests: on an envelope that starts nothing, what is written
    is what the finished step writes followed by the end of line of the
    finished test case, each only if the envelope carries that kind; an
    envelope of no known kind writes nothing. *)
Theorem X15_kinds_in_order e fm :
  testCaseStarted e = None -> testStepStarted e = None ->
  text (parseEnvelope e fm) =
    from_option (fun f => text (onTestStepFinished f fm)) []
      (testStepFinished e) ++
    from_option (fun _ => [EOL]) [] (testCaseFinished e).
Proof.
  intros Hc Hs. unfold parseEnvelope. rewrite Hc, Hs. cbn [from_option].
  do 2 silent_step.
  destruct (testStepFinished e) as [f|]; cbn [from_option].
  - rewrite (bind_returns (onTestStepFinished f) _ fm tt)
      by (apply returns_tt, total_onTestStepFinished).
    cbn [text]. f_equal.
    now destruct (testCaseFinished e).
  - silent_step. now destruct (testCaseFinished e).
Qed.

End Kinds.

(** * The claims on the text *)

Section TextClaims.

Context {host : Host}.

(** The line of a step without doc string and without data table. *)
Lemma onTestStepStarted_plain e att ts ps gs fm :
  getTestCaseAttempt (orElse (testCaseStartedId e) "") = Some att ->
  find (fun item => String.eqb (testStep_id item) (testStepId e))
       (default [] (testSteps (testCase att))) = Some ts ->
  truthy (pickleStepId ts) = true ->
  getPickleStepMap (pickle att) !! orElse (pickleStepId ts) "" = Some ps ->
  getGherkinStepMap (gherkinDocument att) !! key0 (pickleStep_astNodeIds ps)
    = Some gs ->
  docString gs = None -> dataTable gs = None ->
  onTestStepStarted e fm =
  {| result := Returns tt; after := fm;
     text := [indentStyleText (indented 4 fm) StepKeyword [step_keyword gs];
              " ";
              indentStyleText 0 StepText [pickleStep_text ps]; EOL];
     entered := [] |}.
Proof.
  intros Hatt Hfind Hid Hps Hgs Hdoc Htab.
  unfold onTestStepStarted, eventDataCollector_getTestCaseAttempt.
  rewrite Hatt. silent_step. rewrite Hfind, Hid. cbn [when].
  rewrite Hps. cbn [prop]. silent_step. rewrite Hgs. cbn [prop].
  silent_step. rewrite Hdoc, Htab. reflexivity.
Qed.

(** C8.  A fresh formatter is sent the four envelopes of one attempt [A]: a
    scenario at the top of the feature [f] of a document with a URI (as
    "x.feature"), with one step (as "Given a") that passes.  What it has
    written is exactly: the feature head of [f] (its tag line, keyword, name,
    reference to its line in that document, description), the scenario head
    (tag line and keyword at indentation 2, name of the pickle, reference),
    the step line (keyword at indentation 4, space, text, end of line) with
    no status line after it, and one end of line.  The feature head and the
    scenario head are the only heads entered: no rule head is written, and
    no rule is remembered. *)
Theorem C8_one_scenario_stream A step1 att u f sc ts psid ps gs s1 ids g1 gids :
  getTestCaseAttempt (orElse (Some A) "") = Some att ->
  let d := gherkinDocument att in
  doc_uri d = Some u ->
  feature d = Some f ->
  astNodeIds (pickle att) = Some (s1 :: ids) ->
  getGherkinExampleRuleMap d !! s1 = None ->
  getGherkinScenarioMap d !! s1 = Some sc ->
  find (fun item => String.eqb (testStep_id item) step1)
       (default [] (testSteps (testCase att))) = Some ts ->
  pickleStepId ts = Some psid -> truthy (Some psid) = true ->
  getPickleStepMap (pickle att) !! psid = Some ps ->
  pickleStep_astNodeIds ps = g1 :: gids ->
  getGherkinStepMap d !! g1 = Some gs ->
  docString gs = None -> dataTable gs = None ->
  let s := run [caseStarted A; stepStarted A step1;
                stepFinished PASSED None; caseFinished A] start in
  let fm := {| uri := Some u; lastRuleId := None; indentOffset := 0 |} in
  out s =
    featureHeadText f fm ++
    scenarioHeadText (pickle att) sc fm ++
    [indentStyleText 4 StepKeyword [step_keyword gs]; " ";
     indentStyleText 0 StepText [pickleStep_text ps]; EOL] ++
    [EOL] /\
  formatter s = fm /\
  calls s = [call_at FeatureHead fm; call_at ScenarioHead fm] /\
  countIf isRuleHead (calls s) = 0%nat.
Proof.
  intros Hatt d Hu Hf Hids Hrule Hsc Hfind Hps Hpsid Hpstep Hg1 Hgs
    Hdoc Htab s fm.
  assert (Hopen : opened d = fm).
  { unfold opened, fm. now rewrite Hu, orElse_Some. }
  (* the attempt starts *)
  assert (H1 : parseEnvelope (caseStarted A) fresh =
    {| result := Returns tt; after := fm;
       text := featureHeadText f fm ++ scenarioHeadText (pickle att) sc fm;
       entered := [call_at FeatureHead fm; call_at ScenarioHead fm] |}).
  { rewrite parseEnvelope_caseStarted.
    rewrite (onTestCaseStarted_unfold
               {| testCaseStarted_id := Some A |} att fresh Hatt).
    cbv zeta. fold d. rewrite Hids. cbn [key0]. rewrite Hrule.
    rewrite (enterDocument_changes d f fresh Hf) by (rewrite Hu; discriminate).
    rewrite Hopen, renderFeatureHead_effect. cbn [after text entered].
    rewrite enterRule_stays by discriminate. cbn [nothing after text entered].
    rewrite (renderScenarioHead_found d (pickle att) (s1 :: ids) sc fm
               Hids Hsc).
    reflexivity. }
  (* the step starts *)
  assert (H2 : parseEnvelope (stepStarted A step1) fm =
    {| result := Returns tt; after := fm;
       text := [indentStyleText 4 StepKeyword [step_keyword gs]; " ";
                indentStyleText 0 StepText [pickleStep_text ps]; EOL];
       entered := [] |}).
  { rewrite parseEnvelope_stepStarted.
    rewrite (onTestStepStarted_plain _ att ts ps gs fm); try assumption.
    - reflexivity.
    - now rewrite Hps.
    - rewrite Hps. replace (orElse (Some psid) "") with psid
        by (now destruct psid). exact Hpstep.
    - fold d. now rewrite Hg1. }
  subst s. unfold run. cbn [fold_left].
  rewrite (deliver_eq start _ _ _ _ _ H1). cbn [start out calls].
  erewrite (deliver_eq _ (stepStarted A step1)) by exact H2.
  erewrite (deliver_eq _ (stepFinished PASSED None))
    by apply parseEnvelope_passed.
  erewrite (deliver_eq _ (caseFinished A))
    by apply parseEnvelope_caseFinished.
  cbn [formatter out calls]. repeat split.
  now rewrite !app_nil_r, <- !app_assoc.
Qed.

(** C10.  When the document changes to one with a feature and the pickle has
    no [astNodeIds], the handler raises the error of the missing links after
    it has reset the fields and written the whole feature head, keyword
    included, and nothing else: the fields and the text stay changed. *)
Theorem C10_failure_is_not_atomic tcs att f fm :
  getTestCaseAttempt (orElse (testCaseStarted_id tcs) "") = Some att ->
  let d := gherkinDocument att in
  let fm1 := {| uri := Some (orElse (doc_uri d) ""); lastRuleId := None;
                indentOffset := 0 |} in
  feature d = Some f -> uri fm <> doc_uri d ->
  astNodeIds (pickle att) = None ->
  onTestCaseStarted tcs fm =
  {| result := Throws (Error "Pickle AST nodes missing");
     after := fm1;
     text := featureHeadText f fm1;
     entered := [{| routine := FeatureHead; at_uri := uri fm1;
                    at_offset := 0 |}] |} /\
  In (indentStyleText 0 FeatureKeyword
        [orElse (feature_keyword f) "[feature]"; ":"])
     (text (onTestCaseStarted tcs fm)).
Proof.
  intros Hatt d fm1 Hf Hu Hids.
  assert (H : onTestCaseStarted tcs fm =
    {| result := Throws (Error "Pickle AST nodes missing"); after := fm1;
       text := featureHeadText f fm1;
       entered := [{| routine := FeatureHead; at_uri := uri fm1;
                      at_offset := 0 |}] |}).
  { rewrite (onTestCaseStarted_unfold tcs att fm Hatt). cbv zeta. fold d.
    rewrite Hids, (enterDocument_changes d f fm Hf Hu).
    now rewrite renderFeatureHead_effect. }
  split; [exact H|]. rewrite H. cbn [text]. unfold featureHeadText.
  apply in_or_app. right. now left.
Qed.

End TextClaims.

(** * The further properties on the hosts [Demo.demo] and [Demo2.demo2] *)

Section MoreRuns.

Import Demo Demo2.

#[local] Existing Instance demo.

(** X2, witness: three tags, the second without a name, at indentation 2
    under a rule; and a single tag without a name. *)
Lemma X2_witness :
  let fm := {| uri := None; lastRuleId := Some "r"; indentOffset := 2 |} in
  text (renderTags (host := demo) 2
          [ {| tag_name := "@a" |}; {| tag_name := "" |};
            {| tag_name := "@b" |} ] fm)
  = ["    @a"; " "; "@b"; EOL] /\
  text (renderTags (host := demo) 2 [ {| tag_name := "" |} ] fm) = [].
Proof.
  intros fm.
  destruct (X2_renderTags (host := demo) 2
              [ {| tag_name := "@a" |}; {| tag_name := "" |};
                {| tag_name := "@b" |} ] fm) as (H1 & _ & _).
  destruct (X2_renderTags (host := demo) 2 [ {| tag_name := "" |} ] fm)
    as (H2 & H3 & _).
  split.
  - rewrite H1. reflexivity.
  - rewrite H2. exact (H3 eq_refl).
Defined.

(** X3, witness: the feature of "x.feature" on a fresh formatter. *)
Lemma X3_witness :
  text (enterDocument (host := demo) docX fresh)
  = ["@smoke"; EOL; "Feature:"; " "; "F"; " "; "# x.feature:1"; EOL; EOL] /\
  last (text (enterDocument (host := demo) docX fresh)) = Some EOL.
Proof.
  assert (Hne : uri fresh <> doc_uri docX) by discriminate.
  destruct (X3_feature_head (host := demo) docX F fresh eq_refl Hne)
    as (H1 & _ & H3).
  exact (conj H1 H3).
Defined.

(** X4, witness: the rule r1 met under another rule, at offset 2. *)
Lemma X4_witness :
  let fm := {| uri := Some "x.feature"; lastRuleId := Some "r2";
               indentOffset := 2 |} in
  text (enterRule (host := demo) (Some R1) fm)
  = ["  Rule:"; " "; "first"; EOL; EOL] /\
  after (enterRule (host := demo) (Some R1) fm)
  = {| uri := Some "x.feature"; lastRuleId := Some "r1";
       indentOffset := 2 |}.
Proof.
  intros fm.
  assert (Hne : Some (rule_id R1) <> lastRuleId fm) by discriminate.
  rewrite (X4_rule_head (host := demo) R1 fm Hne). split; reflexivity.
Defined.

(** X5, witness: the scenario of the pickle of "t.feature", which has
    neither keyword nor location, under a rule. *)
Lemma X5_witness :
  let fm := {| uri := Some "t.feature"; lastRuleId := Some "r";
               indentOffset := 2 |} in
  text (renderScenarioHead (host := demo2) docT pickleT fm)
  = ["    @a"; " "; "@b"; EOL;
     "    ???:"; " "; ""; " "; "# t.feature:-1"; EOL].
Proof.
  intros fm.
  rewrite (X5_scenario_head_found (host := demo2) docT pickleT ["st"] ST fm
             eq_refl ltac:(vm_compute; reflexivity)).
  vm_compute. reflexivity.
Defined.


(** X7, witness: the step of "t.feature", with its doc string and its data
    table, under a rule. *)
Lemma X7_witness :
  let fm := {| uri := Some "t.feature"; lastRuleId := Some "r";
               indentOffset := 2 |} in
  text (onTestStepStarted (host := demo2)
          {| testCaseStartedId := Some "T"; testStepId := "stepT" |} fm)
  = ["      When"; " "; "it works"; EOL;
     "        ```"; EOL; "        body"; EOL; "        ```"; EOL;
     "        │a│b│
││
││"; EOL].
Proof.
  intros fm.
  rewrite (X7_step_started (host := demo2)
             {| testCaseStartedId := Some "T"; testStepId := "stepT" |}
             {| gherkinDocument := docT; pickle := pickleT;
                testCase := {| testSteps :=
                  Some [{| testStep_id := "stepT";
                           pickleStepId := Some "pt" |}] |} |}
             {| testStep_id := "stepT"; pickleStepId := Some "pt" |}
             {| pickleStep_id := "pt"; pickleStep_astNodeIds := ["gt"];
                pickleStep_text := "it works" |}
             when_it_works fm
             ltac:(vm_compute; reflexivity) ltac:(vm_compute; reflexivity)
             eq_refl
             ltac:(vm_compute; reflexivity) ltac:(vm_compute; reflexivity)).
  vm_compute. reflexivity.
Defined.

(** X8, witness: the step "step9" of the attempt "A", whose pickle step is
    unknown, and the step "stepH" of the attempt "H", whose pickle step
    points to no step of "y.feature". *)
Lemma X8_witness :
  onTestStepStarted (host := demo)
    {| testCaseStartedId := Some "A"; testStepId := "step9" |} fresh =
    {| result := Throws (TypeError "pickleStep.astNodeIds"); after := fresh;
       text := []; entered := [] |} /\
  onTestStepStarted (host := demo2)
    {| testCaseStartedId := Some "H"; testStepId := "stepH" |} fresh =
    {| result := Throws (TypeError "gherkinStep.keyword"); after := fresh;
       text := []; entered := [] |}.
Proof.
  split.
  - refine (proj1 (X8_dangling_step_raises (host := demo)
      {| testCaseStartedId := Some "A"; testStepId := "step9" |}
      {| gherkinDocument := docX; pickle := pickleS1; testCase := caseS1 |}
      {| testStep_id := "step9"; pickleStepId := Some "ps9" |} fresh
      _ _ _) _); vm_compute; reflexivity.
  - refine (proj2 (X8_dangling_step_raises (host := demo2)
      {| testCaseStartedId := Some "H"; testStepId := "stepH" |}
      {| gherkinDocument := docY; pickle := pickleH;
         testCase := {| testSteps :=
           Some [{| testStep_id := "stepH";
                    pickleStepId := Some "ph" |}] |} |}
      {| testStep_id := "stepH"; pickleStepId := Some "ph" |} fresh
      _ _ _)
      {| pickleStep_id := "ph"; pickleStep_astNodeIds := ["ghost"];
         pickleStep_text := "lost" |} _ _); vm_compute; reflexivity.
Defined.

(** X9, witness: the step "step9", which makes the handler raise, met
    under a rule. *)
Lemma X9_witness :
  let fm := {| uri := Some "x.feature"; lastRuleId := Some "r1";
               indentOffset := 2 |} in
  result (parseEnvelope (host := demo) (stepStarted "A" "step9") fm)
    = Throws (TypeError "pickleStep.astNodeIds") /\
  after (parseEnvelope (host := demo) (stepStarted "A" "step9") fm) = fm /\
  entered (parseEnvelope (host := demo) (stepStarted "A" "step9") fm) = [].
Proof.
  intros fm.
  destruct (X9_other_envelopes_keep_the_fields (host := demo)
              (stepStarted "A" "step9") fm eq_refl) as (H1 & H2 & _).
  split; [vm_compute; reflexivity | exact (conj H1 H2)].
Defined.

(** X10, witness: the attempt "G" raises, and the end of line of the
    finished test case is not written. *)
Lemma X10_witness :
  parseEnvelope (host := demo) startAndFinish fresh =
  onTestCaseStarted (host := demo) {| testCaseStarted_id := Some "G" |} fresh
  /\ last (text (parseEnvelope (host := demo) startAndFinish fresh))
     = Some EOL
  /\ length (text (parseEnvelope (host := demo) startAndFinish fresh))
     = 9%nat.
Proof.
  split.
  - apply (X10_raise_ends_the_envelope (host := demo) startAndFinish
             {| testCaseStarted_id := Some "G" |}
             (TypeError "scenario.keyword") fresh eq_refl).
    vm_compute. reflexivity.
  - split; vm_compute; reflexivity.
Defined.

(** X11, witness: the scenario S1 while "x.feature" is the tracked
    document. *)
Lemma X11_witness :
  let fm := {| uri := Some "x.feature"; lastRuleId := None;
               indentOffset := 0 |} in
  onTestCaseStarted (host := demo) {| testCaseStarted_id := Some "A" |} fm =
  renderScenarioHead (host := demo) docX pickleS1 fm.
Proof.
  intros fm.
  refine (X11_same_place_renders_scenario_head_only (host := demo)
            {| testCaseStarted_id := Some "A" |}
            {| gherkinDocument := docX; pickle := pickleS1;
               testCase := caseS1 |}
            ["s1"] fm _ eq_refl (ex_intro _ F eq_refl) eq_refl _).
  - vm_compute. reflexivity.
  - intros r Hr. vm_compute in Hr. discriminate Hr.
Defined.

(** X12, witness: an example row under the rule r1, started twice on a
    fresh formatter. *)
Lemma X12_witness :
  let tcs := {| testCaseStarted_id := Some "B" |} in
  let fm1 := after (onTestCaseStarted (host := demo) tcs fresh) in
  fm1 = {| uri := Some "x.feature"; lastRuleId := Some "r1";
           indentOffset := 2 |} /\
  onTestCaseStarted (host := demo) tcs fm1 =
  renderScenarioHead (host := demo) docX
    (pickleOf "S2" (Some ["s2"; "row1"])) fm1.
Proof.
  intros tcs fm1. split; [vm_compute; reflexivity|].
  refine (X12_retry_renders_scenario_head_only (host := demo) tcs
            {| gherkinDocument := docX;
               pickle := pickleOf "S2" (Some ["s2"; "row1"]);
               testCase := noSteps |}
            ["s2"; "row1"] "x.feature" fresh _ eq_refl
            (ex_intro _ F eq_refl) eq_refl).
  vm_compute. reflexivity.
Defined.

(** X13, witness: three attempts of the document without a URI, on a fresh
    formatter and after an attempt of "y.feature". *)
Lemma X13_witness :
  let stream := [caseStarted "N"; caseStarted "N"; caseStarted "N"] in
  countIf isFeatureHead (calls (run (host := demo2) stream start)) = 0%nat /\
  countIf isFeatureHead
    (calls (run (host := demo2) stream
              (run (host := demo2) [caseStarted "C"] start))) = 4%nat.
Proof.
  intros stream.
  assert (Hs : Forall (startsNameless (host := demo2)) stream).
  { repeat constructor;
      exists {| testCaseStarted_id := Some "N" |},
             {| gherkinDocument := docN;
                pickle := pickleOf "T1" (Some ["t1"]);
                testCase := noSteps |};
      (repeat split; try (vm_compute; reflexivity)); now exists G. }
  destruct (X13_document_without_uri (host := demo2) stream start Hs)
    as [H0 _].
  destruct (X13_document_without_uri (host := demo2) stream
              (run (host := demo2) [caseStarted "C"] start) Hs)
    as [_ H1].
  split.
  - rewrite (H0 eq_refl). reflexivity.
  - rewrite H1; [vm_compute; reflexivity|]. vm_compute. discriminate.
Defined.

(** X14, witness: two example rows of the outline under r1. *)
Lemma X14_witness :
  out (run (host := demo) [caseStarted "B"; caseStarted "B2"] start)
  = ["@smoke"; EOL;
     "Feature:"; " "; "F"; " "; "# x.feature:1"; EOL; EOL;
     "  Rule:"; " "; "first"; EOL; EOL;
     "    Scenario Outline:"; " "; "S2"; " "; "# x.feature:8"; EOL;
     "    Scenario Outline:"; " "; "S2"; " "; "# x.feature:8"; EOL].
Proof.
  destruct (X14_rule_reuse (host := demo) "B" "B2"
    {| gherkinDocument := docX; pickle := pickleOf "S2" (Some ["s2"; "row1"]);
       testCase := noSteps |}
    {| gherkinDocument := docX; pickle := pickleOf "S2" (Some ["s2"; "row2"]);
       testCase := noSteps |}
    "x.feature" F R1 R1 ["s2"; "row1"] ["s2"; "row2"] S2 S2
    ltac:(vm_compute; reflexivity) ltac:(vm_compute; reflexivity)
    eq_refl eq_refl eq_refl eq_refl eq_refl
    ltac:(vm_compute; reflexivity) ltac:(vm_compute; reflexivity) eq_refl
    ltac:(vm_compute; reflexivity) ltac:(vm_compute; reflexivity))
    as (_ & H & _).
  rewrite H. vm_compute. reflexivity.
Defined.

(** X15, witness: a failed step and the end of the test case in one
    envelope. *)
Lemma X15_witness :
  text (parseEnvelope (host := demo) failAndFinish fresh)
  = ["    x failed"; EOL; "      boom"; EOL; EOL].
Proof.
  rewrite (X15_kinds_in_order (host := demo) failAndFinish fresh
             eq_refl eq_refl).
  vm_compute. reflexivity.
Defined.

End MoreRuns.

(** * The restated claims on the hosts *)

Section LastRuns.

Import Demo Demo3.

#[local] Existing Instance demo.

(** C2, witness.  After an example row under the rule r1 of "x.feature":
    the attempt "C" changes the document to "y.feature" and ends at offset
    0 with no rule remembered; the attempt "B3" changes the rule to r2,
    whose head is entered at offset 0, and ends at offset 2. *)
Lemma C2_witness :
  let fm := formatter (run [caseStarted "B"] start) in
  let eC := onTestCaseStarted {| testCaseStarted_id := Some "C" |} fm in
  let eB3 := onTestCaseStarted {| testCaseStarted_id := Some "B3" |} fm in
  fm = {| uri := Some "x.feature"; lastRuleId := Some "r1";
          indentOffset := 2 |} /\
  (indentOffset (after eC) = 0 /\ lastRuleId (after eC) = None) /\
  In {| routine := RuleHead "r2"; at_uri := Some "x.feature";
        at_offset := 0 |} (entered eB3) /\
  last (entered eB3) =
    Some {| routine := ScenarioHead; at_uri := Some "x.feature";
            at_offset := 2 |} /\
  indentOffset (after eB3) = 2 /\
  lastRuleId (after eB3) = Some "r2".
Proof.
  intros fm eC eB3.
  destruct (C2_offset_follows_last_rule [caseStarted "B"]) as (_ & _ & H).
  assert (HC : getTestCaseAttempt "C" =
            Some {| gherkinDocument := docY;
                    pickle := pickleOf "T1" (Some ["t1"]);
                    testCase := noSteps |}) by (vm_compute; reflexivity).
  assert (HB : getTestCaseAttempt "B3" =
            Some {| gherkinDocument := docX;
                    pickle := pickleOf "S3" (Some ["s3"]);
                    testCase := noSteps |}) by (vm_compute; reflexivity).
  destruct (H {| testCaseStarted_id := Some "C" |} _ HC) as [Hdoc _].
  destruct (H {| testCaseStarted_id := Some "B3" |} _ HB) as [_ Hrule].
  assert (Hne : uri fm <> doc_uri docY) by (vm_compute; discriminate).
  destruct (Hdoc G eq_refl Hne) as (_ & _ & Hend).
  assert (Hnone : forall ids,
            astNodeIds (pickleOf "T1" (Some ["t1"])) = Some ids ->
            getGherkinExampleRuleMap docY !! key0 ids = None).
  { intros ids Hids. injection Hids as <-. vm_compute. reflexivity. }
  assert (Hr2 : getGherkinExampleRuleMap docX !! key0 ["s3"] = Some R2)
    by (vm_compute; reflexivity).
  assert (Hnew : Some (rule_id R2)
                 <> lastRuleId (after (enterDocument docX fm)))
    by (vm_compute; discriminate).
  exact (conj eq_refl (conj (Hend Hnone) (Hrule ["s3"] R2 eq_refl Hr2 Hnew))).
Defined.

(** C8, witness: the attempt "A" of the demo host, string by string. *)
Lemma C8_witness :
  out (run [caseStarted "A"; stepStarted "A" "step1";
            stepFinished PASSED None; caseFinished "A"] start)
  = ["@smoke"; EOL;
     "Feature:"; " "; "F"; " "; "# x.feature:1"; EOL; EOL;
     "  Scenario:"; " "; "S1"; " "; "# x.feature:3"; EOL;
     "    Given"; " "; "a"; EOL;
     EOL].
Proof.
  refine (proj1 (C8_one_scenario_stream "A" "step1"
    {| gherkinDocument := docX; pickle := pickleS1; testCase := caseS1 |}
    "x.feature" F S1
    {| testStep_id := "step1"; pickleStepId := Some "ps1" |} "ps1"
    {| pickleStep_id := "ps1"; pickleStep_astNodeIds := ["g1"];
       pickleStep_text := "a" |}
    given_a "s1" [] "g1" []
    _ _ _ _ _ _ _ _ _ _ _ _ _ _)); vm_compute; reflexivity.
Defined.



(** C10, witness: the attempt "E" of "y.feature", whose pickle has no
    [astNodeIds], on a fresh formatter. *)
Lemma C10_witness :
  onTestCaseStarted {| testCaseStarted_id := Some "E" |} fresh =
  {| result := Throws (Error "Pickle AST nodes missing");
     after := {| uri := Some "y.feature"; lastRuleId := None;
                 indentOffset := 0 |};
     text := ["Feature:"; " "; "G"; EOL; EOL];
     entered := [{| routine := FeatureHead; at_uri := Some "y.feature";
                    at_offset := 0 |}] |}.
Proof.
  assert (Hatt : getTestCaseAttempt "E" =
            Some {| gherkinDocument := docY; pickle := pickleOf "unlinked" None;
                    testCase := noSteps |}) by (vm_compute; reflexivity).
  assert (Hne : uri fresh <> doc_uri docY) by discriminate.
  exact (proj1 (C10_failure_is_not_atomic
                  {| testCaseStarted_id := Some "E" |} _ G fresh
                  Hatt eq_refl Hne eq_refl)).
Defined.

End LastRuns.
